(** * Credential lifecycle of the Teams MCP server

    A shallow embedding of the credential code of the repository:
    - [src/services/graph.ts]: [GraphService] with [refreshAccessToken],
      [ensureValidToken], [initializeClient], the [getAccessToken] callback
      handed to the Graph client, and [getClient];
    - [src/index.ts]: [getDeviceCode], [pollForToken] and [authenticate].

    Asynchronous functions are embedded twice.  The direct embedding runs one
    logical call to completion in a state-and-exception monad.  The task
    machine of [Module Async] cuts [getAccessToken] at its [await]s, so that
    several callers can be interleaved on one event loop. *)

From stdpp Require Import gmap strings list fin_maps.
From Equations Require Import Equations.
From Stdlib Require Import ZArith Ascii.

Set Warnings "-register-all".
Local Open Scope string_scope.
Local Open Scope Z_scope.

(** ** JavaScript values *)

Module JS.

(** What [JSON.parse] can return, plus [undefined].  Numbers are integers. *)
Inductive jsval :=
| VUndef
| VNull
| VBool (b : bool)
| VNum (n : Z)
| VStr (s : string)
| VArr (items : list jsval)
| VObj (fields : gmap string jsval).

(** ToBoolean. *)
Definition truthy (v : jsval) : bool :=
  match v with
  | VUndef | VNull => false
  | VBool b => b
  | VNum n => negb (n =? 0)
  | VStr s => negb (String.eqb s "")
  | VArr _ | VObj _ => true
  end.

(** [v.k] for a truthy [v], and [v?.k] for any [v].  The keys read by the
    program are those of [StoredAuthInfo]; none of them is an own property
    of a string or of an array. *)
Definition get_prop (v : jsval) (k : string) : jsval :=
  match v with
  | VObj fields => default VUndef (fields !! k)
  | _ => VUndef
  end.

(** [{...v}]: the own enumerable properties of [v].  The program spreads
    [this.authInfo] only after reading a truthy [refreshToken] from it, which
    makes it an object (lemma [refreshToken_is_object]). *)
Definition spread (v : jsval) : gmap string jsval :=
  match v with
  | VObj fields => fields
  | _ => ∅
  end.

Definition is_undefined (v : jsval) : bool :=
  match v with VUndef => true | _ => false end.

(** [JSON.parse (JSON.stringify v)]: properties holding [undefined] are
    not written.  Values below the top level come from [JSON.parse] and hold
    no [undefined]. *)
Definition JSON_reparse (v : jsval) : jsval :=
  match v with
  | VObj fields => VObj (filter (λ kv, is_undefined kv.2 = false) fields)
  | _ => v
  end.

(** The text of a file, seen through [JSON.parse]. *)
Inductive text :=
| Malformed
| Json (v : jsval).

(** Time values are milliseconds since the epoch; [None] is the time value
    NaN of an Invalid Date. *)
Definition TimeClip (t : Z) : option Z :=
  if Z.abs t <=? 8640000000000000 then Some t else None.

(** The parts of the built-in [Date] that work on strings are left to the
    runtime: [Date.parse], the string [ToPrimitive] makes of an object or an
    array, and [toISOString] on a valid time value. *)
Class DateRuntime := {
  Date_parse : string → option Z;
  ToPrimitive_string : jsval → string;
  Date_toISOString : Z → string;
}.

Section Dates.
Context `{DateRuntime}.

(** [new Date(v)] *)
Definition new_Date (v : jsval) : option Z :=
  match v with
  | VUndef => None
  | VNull => TimeClip 0
  | VBool b => TimeClip (if b then 1 else 0)
  | VNum n => TimeClip n
  | VStr s => Date_parse s
  | VArr _ | VObj _ => Date_parse (ToPrimitive_string v)
  end.

(** [a <= b] on two dates: false as soon as one of them is invalid. *)
Definition date_le (a b : option Z) : bool :=
  match a, b with
  | Some x, Some y => x <=? y
  | _, _ => false
  end.

End Dates.

End JS.

(** ** A concrete [Date] runtime

    The date-time string format of ECMAScript,
    [YYYY-MM-DDTHH:mm:ss.sssZ], for the examples that run the program on
    concrete documents. *)

Module Iso.
Import JS.

(** Days since 1970-01-01 of a proleptic Gregorian date, and back. *)
Definition days_from_civil (y m d : Z) : Z :=
  let y' := if m <=? 2 then y - 1 else y in
  let era := y' / 400 in
  let yoe := y' - era * 400 in
  let mp := (m + 9) mod 12 in
  let doy := (153 * mp + 2) / 5 + d - 1 in
  let doe := yoe * 365 + yoe / 4 - yoe / 100 + doy in
  era * 146097 + doe - 719468.

Definition civil_from_days (z : Z) : Z * Z * Z :=
  let z' := z + 719468 in
  let era := z' / 146097 in
  let doe := z' - era * 146097 in
  let yoe := (doe - doe / 1460 + doe / 36524 - doe / 146096) / 365 in
  let doy := doe - (365 * yoe + yoe / 4 - yoe / 100) in
  let mp := (5 * doy + 2) / 153 in
  let d := doy - (153 * mp + 2) / 5 + 1 in
  let m := if mp <? 10 then mp + 3 else mp - 9 in
  let y := yoe + era * 400 in
  (if m <=? 2 then y + 1 else y, m, d).

Definition digit (n : Z) : ascii := ascii_of_nat (48 + Z.to_nat n).

(** [n] written with [width] decimal digits. *)
Fixpoint pad (width : nat) (n : Z) : string :=
  match width with
  | O => ""
  | S w => pad w (n / 10) +:+ String (digit (n mod 10)) ""
  end.

Definition year_string (y : Z) : string :=
  if (0 <=? y) && (y <=? 9999) then pad 4 y
  else (if y <? 0 then "-" else "+") +:+ pad 6 (Z.abs y).

Definition toISOString (t : Z) : string :=
  let ms := t mod 86400000 in
  let '(y, m, d) := civil_from_days (t / 86400000) in
  year_string y +:+ "-" +:+ pad 2 m +:+ "-" +:+ pad 2 d +:+ "T" +:+
  pad 2 (ms / 3600000) +:+ ":" +:+ pad 2 (ms / 60000 mod 60) +:+ ":" +:+
  pad 2 (ms / 1000 mod 60) +:+ "." +:+ pad 3 (ms mod 1000) +:+ "Z".

Definition digit_value (c : ascii) : option Z :=
  let n := Z.of_nat (nat_of_ascii c) in
  if (48 <=? n) && (n <=? 57) then Some (n - 48) else None.

Fixpoint number (acc : Z) (s : string) : option Z :=
  match s with
  | EmptyString => Some acc
  | String c rest =>
      match digit_value c with
      | Some v => number (acc * 10 + v) rest
      | None => None
      end
  end.

Definition field (s : string) (from len : nat) : option Z :=
  number 0 (String.substring from len s).

(** A string is accepted when it is the canonical rendering of the instant
    its fields denote; anything else is an Invalid Date. *)
Definition parse (s : string) : option Z :=
  match field s 0 4, field s 5 2, field s 8 2,
        field s 11 2, field s 14 2, field s 17 2, field s 20 3 with
  | Some y, Some m, Some d, Some hh, Some mm, Some ss, Some ms =>
      let t := days_from_civil y m d * 86400000
               + hh * 3600000 + mm * 60000 + ss * 1000 + ms in
      if String.eqb (toISOString t) s then TimeClip t else None
  | _, _, _, _, _, _, _ => None
  end.

#[export] Instance runtime : DateRuntime := {|
  Date_parse := parse;
  ToPrimitive_string := λ v,
    match v with VObj _ => "[object Object]" | _ => "" end;
  Date_toISOString := toISOString;
|}.

End Iso.

(** ** The environment: files, clock, authorization server *)

Module Env.
Import JS.

(** [interface TokenResponse] of [index.ts], [interface RefreshTokenResponse]
    of [graph.ts]: the same fields. *)
Record TokenResponse := {
  access_token : string;
  refresh_token : string;
  expires_in : Z;
  token_type : string;
  scope : string;
}.

Record DeviceCodeResponse := {
  device_code : string;
  user_code : string;
  verification_uri : string;
  device_expires_in : Z;
  interval : Z;
  message : string;
}.

(** The body of an error response of the token endpoint. *)
Record OAuthError := {
  error : string;
  error_description : string;
}.

(** A settled [fetch]: [response.ok] with a body of the declared type, or
    not ok with a status, the raw text and an error body.  A body of [None]
    is not JSON: [response.json()] rejects. *)
Inductive Response (A : Type) :=
| Success (body : option A)
| Failure (status : Z) (raw : string) (body : option OAuthError).
Arguments Success {A} body.
Arguments Failure {A} status raw body.

Inductive Request :=
| DeviceCodeRequest
| DeviceTokenRequest (code : string)
| RefreshRequest (token : jsval).

Definition is_token_request (r : Request) : bool :=
  match r with DeviceCodeRequest => false | _ => true end.

(** What [fs.writeFile] does: it writes the text, or it rejects and leaves
    on disk whatever the file system left there. *)
Inductive WriteOutcome :=
| Written
| WriteFails (residue : option text).

Inductive Message :=
| FailedToGetDeviceCode (status : Z) (raw : string)
| UserDeclined
| DeviceCodeExpired
| AuthenticationFailed (err : string) (description : string)
| AuthenticationTimedOut
| UnableToObtainToken
| NotAuthenticatedRunCli.

Inductive Exn :=
| NetworkError
| SyntaxError
| RangeError
| FsError
| Error (msg : Message)
| ProcessExit (code : Z).

(** The lines written to the console that report an outcome. *)
Inductive Log :=
| NoRefreshTokenAvailable
| TokenRefreshFailed (status : Z) (raw : string)
| ErrorRefreshingToken (e : Exn)
| TokenRefreshed (newExpiresAt : option Z)
| AttemptingRefresh
| UnableToRefreshToken
| FailedToInitialize (e : Exn)
| PleaseCompleteAuthentication (uri code : string)
| AuthenticationSuccessful (expiresAt : option Z)
| AuthenticationFailedLog (e : Exn).

Inductive Event :=
| EvFetch (r : Request)
| EvSleep (ms : Z)
| EvWrite (doc : jsval)
| EvLog (l : Log).

(** The world outside the program.  [file] is the document at
    [~/.msgraph-mcp-auth.json]; the three oracles give the successive clock
    readings, the settlement of the [n]-th request to each endpoint ([None]:
    [fetch] rejects) and the outcome of the [n]-th write.  [trace] holds the
    effects so far, newest first. *)
Record World := {
  file : option text;
  clock : nat → Z;
  ticks : nat;
  token_endpoint : nat → option (Response TokenResponse);
  devicecode_endpoint : nat → option (Response DeviceCodeResponse);
  disk : nat → WriteOutcome;
  trace : list Event;
}.

Definition set_file (f : option text) (w : World) : World :=
  {| file := f; clock := clock w; ticks := ticks w;
     token_endpoint := token_endpoint w;
     devicecode_endpoint := devicecode_endpoint w;
     disk := disk w; trace := trace w |}.

Definition tick (w : World) : World :=
  {| file := file w; clock := clock w; ticks := S (ticks w);
     token_endpoint := token_endpoint w;
     devicecode_endpoint := devicecode_endpoint w;
     disk := disk w; trace := trace w |}.

Definition record (e : Event) (w : World) : World :=
  {| file := file w; clock := clock w; ticks := ticks w;
     token_endpoint := token_endpoint w;
     devicecode_endpoint := devicecode_endpoint w;
     disk := disk w; trace := e :: trace w |}.

Fixpoint count (p : Event → bool) (tr : list Event) : nat :=
  match tr with
  | [] => O
  | e :: rest => (if p e then 1 else 0)%nat + count p rest
  end.

Definition is_token_fetch (e : Event) : bool :=
  match e with EvFetch r => is_token_request r | _ => false end.
Definition is_devicecode_fetch (e : Event) : bool :=
  match e with EvFetch DeviceCodeRequest => true | _ => false end.
Definition is_fetch (e : Event) : bool :=
  match e with EvFetch _ => true | _ => false end.
Definition is_write (e : Event) : bool :=
  match e with EvWrite _ => true | _ => false end.

(** Network calls made so far, and writes to the credential file. *)
Definition network_calls (w : World) : nat := count is_fetch (trace w).
Definition token_calls (w : World) : nat := count is_token_fetch (trace w).
Definition devicecode_calls (w : World) : nat := count is_devicecode_fetch (trace w).
Definition writes (w : World) : nat := count is_write (trace w).

(** *** The monad: state [S], JavaScript exceptions *)

Inductive Res (A : Type) :=
| Val (a : A)
| Exc (e : Exn).
Arguments Val {A} a.
Arguments Exc {A} e.

Definition M (S A : Type) : Type := S → Res A * S.

Definition ret {S A} (a : A) : M S A := λ s, (Val a, s).

Definition bind {S A B} (m : M S A) (k : A → M S B) : M S B := λ s,
  match m s with
  | (Val a, s') => k a s'
  | (Exc e, s') => (Exc e, s')
  end.

Definition throw {S A} (e : Exn) : M S A := λ s, (Exc e, s).

(** [try { m } catch (e) { handler e }] *)
Definition try_catch {S A} (m : M S A) (handler : Exn → M S A) : M S A := λ s,
  match m s with
  | (Val a, s') => (Val a, s')
  | (Exc e, s') => handler e s'
  end.

Definition gets {S A} (f : S → A) : M S A := λ s, (Val (f s), s).
Definition modify {S} (f : S → S) : M S unit := λ s, (Val tt, f s).

Declare Scope js_scope.
Delimit Scope js_scope with js.
Notation "x <- m ;; k" := (bind m (λ x, k))
  (at level 100, m at next level, k at level 200, right associativity) : js_scope.
Notation "m ;; k" := (bind m (λ _, k))
  (at level 100, k at level 200, right associativity) : js_scope.
Local Open Scope js_scope.

(** *** Effects on the world *)

(** [Date.now()], [new Date()] *)
Definition Date_now : M World Z := λ w, (Val (clock w (ticks w)), tick w).

Definition console (l : Log) : M World unit := modify (record (EvLog l)).

(** [setTimeout] awaited *)
Definition sleep (ms : Z) : M World unit := modify (record (EvSleep ms)).

(** [fetch] on the token endpoint, in its two halves: the request leaves
    when [fetch] is called, and is settled when the caller resumes. *)
Definition send_token_request (r : Request) : M World nat := λ w,
  (Val (token_calls w), record (EvFetch r) w).

Definition settle_token_request (n : nat) : M World (Response TokenResponse) := λ w,
  match token_endpoint w n with
  | Some r => (Val r, w)
  | None => (Exc NetworkError, w)
  end.

Definition fetch_token (r : Request) : M World (Response TokenResponse) :=
  n <- send_token_request r ;; settle_token_request n.

Definition fetch_devicecode : M World (Response DeviceCodeResponse) := λ w,
  let w' := record (EvFetch DeviceCodeRequest) w in
  match devicecode_endpoint w (devicecode_calls w) with
  | Some r => (Val r, w')
  | None => (Exc NetworkError, w')
  end.

(** [response.json()] *)
Definition json {S A} (body : option A) : M S A :=
  match body with
  | Some a => ret a
  | None => throw SyntaxError
  end.

(** [fs.readFile(path, "utf8")] then [JSON.parse] *)
Definition readFile : M World text := λ w,
  match file w with
  | Some t => (Val t, w)
  | None => (Exc FsError, w)
  end.

Definition JSON_parse {S} (t : text) : M S jsval :=
  match t with
  | Json v => ret v
  | Malformed => throw SyntaxError
  end.

(** [fs.writeFile(path, JSON.stringify(doc, null, 2))], in two halves as
    for [fetch]. *)
Definition start_write (doc : jsval) : M World WriteOutcome := λ w,
  let o := disk w (writes w) in
  let w' := record (EvWrite doc) w in
  match o with
  | Written => (Val o, set_file (Some (Json (JSON_reparse doc))) w')
  | WriteFails residue => (Val o, set_file residue w')
  end.

Definition finish_write {S} (o : WriteOutcome) : M S unit :=
  match o with
  | Written => ret tt
  | WriteFails _ => throw FsError
  end.

Definition writeFile (doc : jsval) : M World unit :=
  o <- start_write doc ;; finish_write o.

(** [date.toISOString()]: a [RangeError] on an Invalid Date. *)
Definition toISOString `{DateRuntime} {S} (d : option Z) : M S string :=
  match d with
  | Some t => ret (Date_toISOString t)
  | None => throw RangeError
  end.

End Env.

(** ** [src/services/graph.ts] *)

Module Graph.
Import JS Env.
Local Open Scope js_scope.

(** The value of [Client.initWithMiddleware ({ authProvider })]; its
    [authProvider.getAccessToken] is [getAccessToken] below. *)
Inductive Client := GraphClient.

Record GraphService := {
  client : option Client;
  isInitialized : bool;
  authInfo : jsval;
}.

Definition new_GraphService : GraphService :=
  {| client := None; isInitialized := false; authInfo := VUndef |}.

(** The server process: the singleton and the world around it. *)
Record Proc := {
  this : GraphService;
  world : World;
}.

Definition io {A} (m : M World A) : M Proc A := λ p,
  match m (world p) with
  | (r, w) => (r, {| this := this p; world := w |})
  end.

Definition get_authInfo : M Proc jsval := gets (λ p, authInfo (this p)).
Definition get_client : M Proc (option Client) := gets (λ p, client (this p)).
Definition get_isInitialized : M Proc bool := gets (λ p, isInitialized (this p)).

Definition set_authInfo (v : jsval) : M Proc unit :=
  modify (λ p, {| this := {| client := client (this p);
                            isInitialized := isInitialized (this p);
                            authInfo := v |};
                  world := world p |}).

Definition set_client (c : option Client) : M Proc unit :=
  modify (λ p, {| this := {| client := c;
                            isInitialized := isInitialized (this p);
                            authInfo := authInfo (this p) |};
                  world := world p |}).

Definition set_isInitialized (b : bool) : M Proc unit :=
  modify (λ p, {| this := {| client := client (this p);
                            isInitialized := b;
                            authInfo := authInfo (this p) |};
                  world := world p |}).

Section WithRuntime.
Context `{DateRuntime}.

(** The object literal of lines 89-95:
    [{ ...this.authInfo, accessToken, refreshToken, expiresAt, timestamp }]. *)
Definition updated (info : jsval) (r : TokenResponse) (expiresAt timestamp : string) : jsval :=
  VObj (<["timestamp" := VStr timestamp]>
       (<["expiresAt" := VStr expiresAt]>
       (<["refreshToken" := VStr (refresh_token r)]>
       (<["accessToken" := VStr (access_token r)]> (spread info))))).

Definition refreshAccessToken : M Proc bool :=
  info <- get_authInfo ;;
  if negb (truthy (get_prop info "refreshToken")) then
    (io (console NoRefreshTokenAvailable) ;; ret false)
  else
    try_catch
      (response <- io (fetch_token (RefreshRequest (get_prop info "refreshToken"))) ;;
       match response with
       | Failure status raw _ =>
           io (console (TokenRefreshFailed status raw)) ;; ret false
       | Success body =>
           tokenResponse <- json body ;;
           now <- io Date_now ;;
           let newExpiresAt := TimeClip (now + expires_in tokenResponse * 1000) in
           info <- get_authInfo ;;
           expiresAt <- toISOString newExpiresAt ;;
           timestamp <- io Date_now ;;
           set_authInfo (updated info tokenResponse expiresAt (Date_toISOString timestamp)) ;;
           info' <- get_authInfo ;;
           io (writeFile info') ;;
           io (console (TokenRefreshed newExpiresAt)) ;;
           ret true
       end)
      (λ e, io (console (ErrorRefreshingToken e)) ;; ret false).

Definition ensureValidToken : M Proc bool :=
  info <- get_authInfo ;;
  if negb (truthy info) then ret false
  else
    let expiresAt := new_Date (get_prop info "expiresAt") in
    now <- io Date_now ;;
    let refreshThreshold := TimeClip (now + 5 * 60 * 1000) in
    if date_le expiresAt refreshThreshold then
      (io (console AttemptingRefresh) ;; refreshAccessToken)
    else ret true.

(** [authProvider.getAccessToken] of lines 147-154. *)
Definition getAccessToken : M Proc jsval :=
  isValid <- ensureValidToken ;;
  info <- get_authInfo ;;
  if negb isValid || negb (truthy (get_prop info "accessToken")) then
    throw (Error UnableToObtainToken)
  else ret (get_prop info "accessToken").

Definition initializeClient : M Proc unit :=
  initialized <- get_isInitialized ;;
  if initialized then ret tt
  else
    try_catch
      (authData <- io readFile ;;
       parsed <- JSON_parse authData ;;
       set_authInfo parsed ;;
       info <- get_authInfo ;;
       if truthy (get_prop info "authenticated") && truthy (get_prop info "accessToken") then
         (hasValidToken <- ensureValidToken ;;
          if negb hasValidToken then io (console UnableToRefreshToken)
          else (set_client (Some GraphClient) ;; set_isInitialized true))
       else ret tt)
      (λ e, io (console (FailedToInitialize e))).

Definition getClient : M Proc Client :=
  initializeClient ;;
  c <- get_client ;;
  match c with
  | None => throw (Error NotAuthenticatedRunCli)
  | Some c => ret c
  end.

Definition isAuthenticated (g : GraphService) : bool :=
  match client g with Some _ => isInitialized g | None => false end.

End WithRuntime.

End Graph.

(** ** Callers of [getAccessToken] on one event loop

    An [async] function runs until its next [await], then yields; another
    caller may run before it resumes.  A task is a call of [getAccessToken]
    stopped at one of the [await]s on its path through [ensureValidToken]
    and [refreshAccessToken]. *)

Module Async.
Import JS Env Graph.
Local Open Scope js_scope.

Inductive Task :=
| Called
| AwaitFetch (n : nat)
| AwaitBody (response : Response TokenResponse)
| AwaitWrite (o : WriteOutcome) (newExpiresAt : option Z)
| AwaitValid (isValid : bool)
| Settled (r : Res jsval).

Section WithRuntime.
Context `{DateRuntime}.

(** The [catch] of [refreshAccessToken], for the segments inside its [try]. *)
Definition caught (m : M Proc Task) : M Proc Task :=
  try_catch m
    (λ e, io (console (ErrorRefreshingToken e)) ;; ret (AwaitValid false)).

(** [refreshAccessToken] from its call to [await fetch(...)]. *)
Definition refresh_called : M Proc Task :=
  info <- get_authInfo ;;
  if negb (truthy (get_prop info "refreshToken")) then
    (io (console NoRefreshTokenAvailable) ;; ret (AwaitValid false))
  else
    caught
      (n <- io (send_token_request (RefreshRequest (get_prop info "refreshToken"))) ;;
       ret (AwaitFetch n)).

(** One segment: from where the task stopped to its next [await]. *)
Definition segment (t : Task) : M Proc Task :=
  match t with
  | Called =>
      info <- get_authInfo ;;
      if negb (truthy info) then ret (AwaitValid false)
      else
        let expiresAt := new_Date (get_prop info "expiresAt") in
        now <- io Date_now ;;
        let refreshThreshold := TimeClip (now + 5 * 60 * 1000) in
        if date_le expiresAt refreshThreshold then
          (io (console AttemptingRefresh) ;; refresh_called)
        else ret (AwaitValid true)
  | AwaitFetch n =>
      caught (response <- io (settle_token_request n) ;; ret (AwaitBody response))
  | AwaitBody response =>
      caught
        match response with
        | Failure status raw _ =>
            io (console (TokenRefreshFailed status raw)) ;; ret (AwaitValid false)
        | Success body =>
            tokenResponse <- json body ;;
            now <- io Date_now ;;
            let newExpiresAt := TimeClip (now + expires_in tokenResponse * 1000) in
            info <- get_authInfo ;;
            expiresAt <- toISOString newExpiresAt ;;
            timestamp <- io Date_now ;;
            set_authInfo (updated info tokenResponse expiresAt (Date_toISOString timestamp)) ;;
            info' <- get_authInfo ;;
            o <- io (start_write info') ;;
            ret (AwaitWrite o newExpiresAt)
        end
  | AwaitWrite o newExpiresAt =>
      caught
        (finish_write o ;;
         io (console (TokenRefreshed newExpiresAt)) ;;
         ret (AwaitValid true))
  | AwaitValid isValid =>
      info <- get_authInfo ;;
      if negb isValid || negb (truthy (get_prop info "accessToken")) then
        ret (Settled (Exc (Error UnableToObtainToken)))
      else ret (Settled (Val (get_prop info "accessToken")))
  | Settled r => ret (Settled r)
  end.

(** An exception that leaves a segment rejects the caller's promise. *)
Definition resume (t : Task) (p : Proc) : Task * Proc :=
  match segment t p with
  | (Val t', p') => (t', p')
  | (Exc e, p') => (Settled (Exc e), p')
  end.

(** The event loop: the callers and the process they share. *)
Record Loop := {
  tasks : list Task;
  proc : Proc;
}.

(** Caller [i] runs its next segment. *)
Definition turn (i : nat) (l : Loop) : Loop :=
  match tasks l !! i with
  | None => l
  | Some t =>
      match resume t (proc l) with
      | (t', p') => {| tasks := <[i := t']> (tasks l); proc := p' |}
      end
  end.

Fixpoint run (schedule : list nat) (l : Loop) : Loop :=
  match schedule with
  | [] => l
  | i :: rest => run rest (turn i l)
  end.

(** [n] callers that have just called [getAccessToken]. *)
Definition batch (n : nat) (p : Proc) : Loop :=
  {| tasks := replicate n Called; proc := p |}.

End WithRuntime.

End Async.

(** ** [src/index.ts]: the device code flow *)

Module Cli.
Import JS Env.
Local Open Scope js_scope.

Definition CLIENT_ID : string := "14d82eec-204b-4c2f-b7e8-296a70dab67e".

Definition maxAttempts : nat := 100.

Definition getDeviceCode : M World DeviceCodeResponse :=
  response <- fetch_devicecode ;;
  match response with
  | Failure status raw _ => throw (Error (FailedToGetDeviceCode status raw))
  | Success body => json body
  end.

(** How one pass through the body of the [while] of [pollForToken] ends
    when it does not throw: [return result], or [attempts++; continue] with
    the interval to wait next. *)
Inductive Next :=
| Return (result : TokenResponse)
| Continue (interval : Z).

Definition poll_once (deviceCode : string) (interval : Z) : M World Next :=
  sleep (interval * 1000) ;;
  response <- fetch_token (DeviceTokenRequest deviceCode) ;;
  match response with
  | Success body => result <- json body ;; ret (Return result)
  | Failure _ _ body =>
      result <- json body ;;
      if String.eqb (error result) "authorization_pending" then
        ret (Continue interval)
      else if String.eqb (error result) "slow_down" then
        ret (Continue (interval + 5))
      else if String.eqb (error result) "authorization_declined" then
        throw (Error UserDeclined)
      else if String.eqb (error result) "expired_token" then
        throw (Error DeviceCodeExpired)
      else
        throw (Error (AuthenticationFailed (error result) (error_description result)))
  end.

(** The [while (attempts < maxAttempts)] loop, from the given value of
    [attempts]. *)
Equations? poll_loop (deviceCode : string) (attempts : nat) (interval : Z) (w : World)
  : Res TokenResponse * World by wf (maxAttempts - attempts)%nat lt :=
  poll_loop deviceCode attempts interval w with decide (attempts < maxAttempts)%nat => {
    | right _ := (Exc (Error AuthenticationTimedOut), w);
    | left _ with poll_once deviceCode interval w => {
        | (Val (Return result), w') := (Val result, w');
        | (Val (Continue interval'), w') := poll_loop deviceCode (S attempts) interval' w';
        | (Exc e, w') := (Exc e, w') } }.
Proof. unfold maxAttempts in *. lia. Qed.

Definition pollForToken (deviceCode : string) (interval : Z) : M World TokenResponse :=
  poll_loop deviceCode 0 interval.

Section WithRuntime.
Context `{DateRuntime}.

(** The [StoredAuthInfo] literal of lines 155-162. *)
Definition stored (timestamp expiresAt : string) (r : TokenResponse) : jsval :=
  VObj (<["clientId" := VStr CLIENT_ID]>
       (<["authenticated" := VBool true]>
       (<["timestamp" := VStr timestamp]>
       (<["expiresAt" := VStr expiresAt]>
       (<["accessToken" := VStr (access_token r)]>
       (<["refreshToken" := VStr (refresh_token r)]> ∅)))))).

Definition authenticate : M World unit :=
  try_catch
    (deviceCodeInfo <- getDeviceCode ;;
     console (PleaseCompleteAuthentication
                (verification_uri deviceCodeInfo) (user_code deviceCodeInfo)) ;;
     tokenResponse <- pollForToken (device_code deviceCodeInfo) (interval deviceCodeInfo) ;;
     now <- Date_now ;;
     let expiresAt := TimeClip (now + expires_in tokenResponse * 1000) in
     timestamp <- Date_now ;;
     expiresAtIso <- toISOString expiresAt ;;
     writeFile (stored (Date_toISOString timestamp) expiresAtIso tokenResponse) ;;
     console (AuthenticationSuccessful expiresAt))
    (λ e, console (AuthenticationFailedLog e) ;; throw (ProcessExit 1)).

End WithRuntime.

End Cli.

(** ** States and runs named in the properties *)

Module Outcome.
Import JS Env Graph Async Cli.

Section WithRuntime.
Context `{DateRuntime}.

(** [expiresAt <= refreshThreshold] in [ensureValidToken], at clock
    reading [now]. *)
Definition expiring (info : jsval) (now : Z) : bool :=
  date_le (new_Date (get_prop info "expiresAt")) (TimeClip (now + 5 * 60 * 1000)).

(** The state a successful refresh leaves. *)
Definition after_refresh (p : Proc) (r : TokenResponse) : Proc :=
  let now := clock (world p) (ticks (world p)) in
  let timestamp := clock (world p) (S (ticks (world p))) in
  let info :=
    updated (authInfo (this p)) r
      (Date_toISOString (now + expires_in r * 1000))
      (Date_toISOString timestamp) in
  {| this := {| client := client (this p);
                isInitialized := isInitialized (this p);
                authInfo := info |};
     world :=
       record (EvLog (TokenRefreshed (Some (now + expires_in r * 1000))))
         (set_file (Some (Json (JSON_reparse info)))
            (record (EvWrite info)
               (tick (tick
                  (record (EvFetch (RefreshRequest
                             (get_prop (authInfo (this p)) "refreshToken")))
                     (world p)))))) |}.

(** [n] calls of [getAccessToken], each after the one before has settled. *)
Fixpoint calls (n : nat) (p : Proc) : list (Res jsval) * Proc :=
  match n with
  | O => ([], p)
  | S n' =>
      match getAccessToken p with
      | (r, p1) =>
          match calls n' p1 with
          | (rs, p') => (r :: rs, p')
          end
      end
  end.

(** The world after one pass through the loop of [pollForToken]: the wait,
    then the request. *)
Definition polled (deviceCode : string) (interval : Z) (w : World) : World :=
  record (EvFetch (DeviceTokenRequest deviceCode))
    (record (EvSleep (interval * 1000)) w).

(** The token endpoint answers [authorization_pending] or [slow_down]. *)
Definition keeps_waiting (r : option (Response TokenResponse)) : bool :=
  match r with
  | Some (Failure _ _ (Some body)) =>
      String.eqb (error body) "authorization_pending"
      || String.eqb (error body) "slow_down"
  | _ => false
  end.

Definition slow_down (r : option (Response TokenResponse)) : bool :=
  match r with
  | Some (Failure _ _ (Some body)) => String.eqb (error body) "slow_down"
  | _ => false
  end.

(** What one pass through the loop does, by the answer of the token
    endpoint. *)
Definition poll_answer (interval : Z) (r : option (Response TokenResponse)) : Res Next :=
  match r with
  | None => Exc NetworkError
  | Some (Success None) => Exc SyntaxError
  | Some (Success (Some result)) => Val (Return result)
  | Some (Failure _ _ None) => Exc SyntaxError
  | Some (Failure _ _ (Some body)) =>
      if String.eqb (error body) "authorization_pending" then Val (Continue interval)
      else if String.eqb (error body) "slow_down" then Val (Continue (interval + 5))
      else if String.eqb (error body) "authorization_declined" then Exc (Error UserDeclined)
      else if String.eqb (error body) "expired_token" then Exc (Error DeviceCodeExpired)
      else Exc (Error (AuthenticationFailed (error body) (error_description body)))
  end.

(** The waits of a trace, oldest first, in milliseconds. *)
Fixpoint sleeps (tr : list Event) : list Z :=
  match tr with
  | [] => []
  | EvSleep ms :: rest => (sleeps rest ++ [ms])%list
  | _ :: rest => sleeps rest
  end.

(** The fields of [StoredAuthInfo]. *)
Definition known_field (k : string) : bool :=
  bool_decide (k ∈ ["clientId"; "authenticated"; "timestamp"; "expiresAt";
                    "accessToken"; "refreshToken"]).

(** A document without its field [k], and a world in which no document
    has a field [k]: not the file, not what a write leaves there. *)
Definition without (k : string) (v : jsval) : jsval :=
  match v with
  | VObj fields => VObj (delete k fields)
  | _ => v
  end.

Definition without_text (k : string) (t : text) : text :=
  match t with
  | Json v => Json (without k v)
  | Malformed => Malformed
  end.

Definition without_outcome (k : string) (o : WriteOutcome) : WriteOutcome :=
  match o with
  | Written => Written
  | WriteFails residue => WriteFails (without_text k <$> residue)
  end.

Definition without_event (k : string) (e : Event) : Event :=
  match e with
  | EvWrite doc => EvWrite (without k doc)
  | _ => e
  end.

Definition without_world (k : string) (w : World) : World :=
  {| file := without_text k <$> file w;
     clock := clock w; ticks := ticks w;
     token_endpoint := token_endpoint w;
     devicecode_endpoint := devicecode_endpoint w;
     disk := λ n, without_outcome k (disk w n);
     trace := without_event k <$> trace w |}.

Definition without_proc (k : string) (p : Proc) : Proc :=
  {| this := {| client := client (this p);
                isInitialized := isInitialized (this p);
                authInfo := without k (authInfo (this p)) |};
     world := without_world k (world p) |}.

(** The steps of [initializeClient] on the process. *)
Definition loaded (doc : jsval) (p : Proc) : Proc :=
  {| this := {| client := client (this p);
                isInitialized := isInitialized (this p);
                authInfo := doc |};
     world := world p |}.

Definition ready (p : Proc) : Proc :=
  {| this := {| client := Some GraphClient;
                isInitialized := true;
                authInfo := authInfo (this p) |};
     world := world p |}.

Definition logged (l : Log) (p : Proc) : Proc :=
  {| this := this p; world := record (EvLog l) (world p) |}.

(** A caller alone on the event loop: [k] segments in a row. *)
Fixpoint alone (k : nat) (t : Task) (p : Proc) : Task * Proc :=
  match k with
  | O => (t, p)
  | S k' => match resume t p with (t', p') => alone k' t' p' end
  end.


End WithRuntime.

End Outcome.

(** ** Concrete documents and servers *)

Module Scenario.
Import JS Env Graph Async Cli Outcome Iso.

(** What [authenticate] wrote: a token that expires at 1700000000000. *)
Definition record0 : jsval :=
  VObj (<["clientId" := VStr CLIENT_ID]>
       (<["authenticated" := VBool true]>
       (<["timestamp" := VStr "2023-11-14T21:13:20.000Z"]>
       (<["expiresAt" := VStr "2023-11-14T22:13:20.000Z"]>
       (<["accessToken" := VStr "at0"]>
       (<["refreshToken" := VStr "rt0"]> ∅)))))).

Definition token1 : TokenResponse :=
  {| access_token := "at1"; refresh_token := "rt1"; expires_in := 3600;
     token_type := "Bearer"; scope := "User.Read" |}.

Definition invalid_grant : Response TokenResponse :=
  Failure 400 "invalid_grant"
    (Some {| error := "invalid_grant";
             error_description := "The refresh token was revoked" |}).

(** The server starts an hour before the token expires; every later
    reading of the clock is at the expiry. *)
Definition clock0 (n : nat) : Z :=
  match n with
  | O => 1700000000000 - 3600000
  | S _ => 1700000000000
  end.

(** An authorization server that rejects every refresh. *)
Definition revoked : World :=
  {| file := Some (Json record0); clock := clock0; ticks := 0;
     token_endpoint := λ _, Some invalid_grant;
     devicecode_endpoint := λ _, None;
     disk := λ _, Written; trace := [] |}.

(** An authorization server that rotates refresh tokens: the first request
    with [rt0] is answered, every later one is rejected. *)
Definition rotating : World :=
  {| file := Some (Json record0); clock := clock0; ticks := 0;
     token_endpoint := λ n,
       match n with
       | O => Some (Success (Some token1))
       | S _ => Some invalid_grant
       end;
     devicecode_endpoint := λ _, None;
     disk := λ _, Written; trace := [] |}.

(** The server process after its first [getClient]. *)
Definition started (w : World) : Proc :=
  snd (getClient {| this := new_GraphService; world := w |}).

(** Documents that lack a field: [refreshToken], [expiresAt],
    [accessToken]; and one with a field the service does not know. *)
Definition no_refreshToken : jsval :=
  VObj (<["clientId" := VStr CLIENT_ID]>
       (<["authenticated" := VBool true]>
       (<["timestamp" := VStr "2023-11-14T21:13:20.000Z"]>
       (<["expiresAt" := VStr "2023-11-14T22:13:20.000Z"]>
       (<["accessToken" := VStr "at0"]> ∅))))).

Definition no_expiresAt : jsval :=
  VObj (<["clientId" := VStr CLIENT_ID]>
       (<["authenticated" := VBool true]>
       (<["timestamp" := VStr "2023-11-14T21:13:20.000Z"]>
       (<["accessToken" := VStr "at0"]>
       (<["refreshToken" := VStr "rt0"]> ∅))))).

Definition no_accessToken : jsval :=
  VObj (<["clientId" := VStr CLIENT_ID]>
       (<["authenticated" := VBool true]>
       (<["timestamp" := VStr "2023-11-14T21:13:20.000Z"]>
       (<["expiresAt" := VStr "2023-11-14T22:13:20.000Z"]>
       (<["refreshToken" := VStr "rt0"]> ∅))))).

Definition with_tenant : jsval :=
  VObj (<["tenant" := VStr "common"]> (spread record0)).

(** A world with the given document in the file and a clock that stands
    still; the authorization server rejects every refresh. *)
Definition holding (doc : jsval) (now : Z) : World :=
  {| file := Some (Json doc); clock := λ _, now; ticks := 0;
     token_endpoint := λ _, Some invalid_grant;
     devicecode_endpoint := λ _, None;
     disk := λ _, Written; trace := [] |}.

(** The device code flow: a device code to poll every five seconds, and a
    token endpoint that says [authorization_pending] for ever, or
    [slow_down] twice and then gives a token. *)
Definition device0 : DeviceCodeResponse :=
  {| device_code := "device0"; user_code := "ABCD1234";
     verification_uri := "https://microsoft.com/devicelogin";
     device_expires_in := 900; interval := 5;
     message := "To sign in, open the page and enter the code" |}.

Definition oauth_error (code : string) : Response TokenResponse :=
  Failure 400 code (Some {| error := code; error_description := code |}).

Definition waiting : World :=
  {| file := None; clock := λ _, 1700000000000 - 3600000; ticks := 0;
     token_endpoint := λ _, Some (oauth_error "authorization_pending");
     devicecode_endpoint := λ _, Some (Success (Some device0));
     disk := λ _, Written; trace := [] |}.

Definition slow_twice : World :=
  {| file := None; clock := λ _, 1700000000000 - 3600000; ticks := 0;
     token_endpoint := λ n,
       match n with
       | 0%nat | 1%nat => Some (oauth_error "slow_down")
       | _ => Some (Success (Some token1))
       end;
     devicecode_endpoint := λ _, Some (Success (Some device0));
     disk := λ _, Written; trace := [] |}.

End Scenario.

(** ** Coercions that throw *)

Module Coercion.
Import JS.

(** [ToPrimitive] on a value that [JSON.parse] made, asked for by a template
    literal or by [new Date(v)].  On an object it calls [valueOf] and
    [toString], in the order of the hint: [Object.prototype.valueOf] gives
    the object back, which is no primitive, and an own property [valueOf] or
    [toString] holds a JSON value, which is not callable and is passed over.
    So an object with an own property [toString] has no method left that
    gives a primitive: [TypeError].  An array has [Array.prototype.toString],
    which joins its elements, each through [ToString] unless it is [null] or
    [undefined]: it throws when one of them does.  Nothing else throws. *)
Fixpoint ToPrimitive_throws (v : jsval) : bool :=
  match v with
  | VObj fields =>
      match fields !! "toString" with
      | Some _ => true
      | None => false
      end
  | VArr items => List.existsb ToPrimitive_throws items
  | _ => false
  end.

End Coercion.

(** ** [src/services/graph.ts]: [getAuthStatus] *)

Module Status.
Import JS Env Graph.
Local Open Scope js_scope.

(** [interface AuthStatus].  An optional field that is not set holds
    [undefined]. *)
Module AuthStatus.
Record t := {
  isAuthenticated : bool;
  userPrincipalName : jsval;
  displayName : jsval;
  expiresAt : jsval;
}.
End AuthStatus.

(** [v ?? undefined] *)
Definition or_undefined (v : jsval) : jsval :=
  match v with
  | VNull => VUndef
  | _ => v
  end.

Definition unauthenticated : AuthStatus.t :=
  {| AuthStatus.isAuthenticated := false;
     AuthStatus.userPrincipalName := VUndef;
     AuthStatus.displayName := VUndef;
     AuthStatus.expiresAt := VUndef |}.

(** The object returned at lines 174-179 and 187-192. *)
Definition authenticated_as (me info : jsval) : AuthStatus.t :=
  {| AuthStatus.isAuthenticated := true;
     AuthStatus.userPrincipalName := or_undefined (get_prop me "userPrincipalName");
     AuthStatus.displayName := or_undefined (get_prop me "displayName");
     AuthStatus.expiresAt := get_prop info "expiresAt" |}.

(** What [getAuthStatus] writes with [console.error], returned beside
    its result. *)
Inductive StatusError :=
| ErrorGettingUserInfoAfterRefresh (retryError : Exn)
| ErrorGettingUserInfo (error : Exn).

Section WithRuntime.
Context `{DateRuntime}.

(** [this.client.api("/me").get()] belongs to the Graph client library and is
    taken as it comes: any computation on the process, [api_me]. *)
Variable api_me : M Proc jsval.

(** The [catch] of lines 180-201: one more refresh, one more try. *)
Definition retry_after (error : Exn) : M Proc (AuthStatus.t * list StatusError) :=
  let gave_up (said : list StatusError) :=
    ret (unauthenticated, (said ++ [ErrorGettingUserInfo error])%list) in
  info <- get_authInfo ;;
  if truthy info then
    (refreshed <- refreshAccessToken ;;
     if refreshed then
       try_catch
         (me <- api_me ;;
          info <- get_authInfo ;;
          ret (authenticated_as me info, []))
         (λ retryError, gave_up [ErrorGettingUserInfoAfterRefresh retryError])
     else gave_up [])
  else gave_up [].

Definition getAuthStatus : M Proc (AuthStatus.t * list StatusError) :=
  initializeClient ;;
  c <- get_client ;;
  match c with
  | None => ret (unauthenticated, [])
  | Some _ =>
      try_catch
        (me <- api_me ;;
         info <- get_authInfo ;;
         ret (authenticated_as me info, []))
        retry_after
  end.

End WithRuntime.

End Status.

(** ** [src/tools/auth.ts]: the [auth_status] tool *)

Module AuthTool.
Import JS Env Graph Coercion Status.
Local Open Scope js_scope.

(** The text of the tool, by its parts. *)
Inductive ExpiryNote :=
| NoExpiry
| ExpiresIn (hours minutes : Z) (expiresAt : option Z)
| ExpiredAt (expiresAt : option Z).

Inductive StatusText :=
| AuthenticatedAs (displayName userPrincipalName : jsval) (note : ExpiryNote)
| NotAuthenticated.

(** How the handler ends.  It has no [try], so the [TypeError] of a
    coercion leaves it; [Exn], the errors of the credential code, has
    none. *)
Inductive Completion :=
| Returned (text : StatusText)
| ThrewTypeError.

(** [a || b] *)
Definition or_else (a b : jsval) : jsval := if truthy a then a else b.

(** [Math.floor(timeUntilExpiry / (1000 * 60 * 60))] and
    [Math.floor((timeUntilExpiry % (1000 * 60 * 60)) / (1000 * 60))], for the
    [timeUntilExpiry > 0] of the branch that computes them. *)
Definition hours_left (timeUntilExpiry : Z) : Z :=
  timeUntilExpiry / (1000 * 60 * 60).
Definition minutes_left (timeUntilExpiry : Z) : Z :=
  (timeUntilExpiry mod (1000 * 60 * 60)) / (1000 * 60).

Section WithRuntime.
Context `{DateRuntime}.

(** The note on the expiry, lines 17-31, at clock reading [now]. *)
Definition expiry_note (expiresAt : jsval) : M World ExpiryNote :=
  if truthy expiresAt then
    (let expires := new_Date expiresAt in
     now <- Date_now ;;
     match expires with
     | Some e =>
         let timeUntilExpiry := e - now in
         if 0 <? timeUntilExpiry then
           ret (ExpiresIn (hours_left timeUntilExpiry)
                  (minutes_left timeUntilExpiry) expires)
         else ret (ExpiredAt expires)
     | None => ret (ExpiredAt expires)
     end)
  else ret NoExpiry.

(** The handler of the tool, given the status it got.  The template
    literal of line 15 turns [displayName || ...] and
    [userPrincipalName || ...] into strings, and line 18 makes a [Date] of a
    truthy [expiresAt]: each of them can throw, before the clock is read. *)
Definition status_text (status : AuthStatus.t) : M World Completion :=
  if AuthStatus.isAuthenticated status then
    (let displayName :=
       or_else (AuthStatus.displayName status) (VStr "Unknown User") in
     let userPrincipalName :=
       or_else (AuthStatus.userPrincipalName status) (VStr "No email available") in
     if ToPrimitive_throws displayName || ToPrimitive_throws userPrincipalName then
       ret ThrewTypeError
     else if truthy (AuthStatus.expiresAt status)
             && ToPrimitive_throws (AuthStatus.expiresAt status) then
       ret ThrewTypeError
     else
       (note <- expiry_note (AuthStatus.expiresAt status) ;;
        ret (Returned (AuthenticatedAs displayName userPrincipalName note))))
  else ret (Returned NotAuthenticated).

Definition auth_status (api_me : M Proc jsval) : M Proc Completion :=
  result <- getAuthStatus api_me ;;
  io (status_text (fst result)).

End WithRuntime.

End AuthTool.

(** ** [src/index.ts]: [checkAuth] and [logout] *)

Module Commands.
Import JS Env Coercion Cli.
Local Open Scope js_scope.

(** What [checkAuth] prints, returned beside its result.  The last two are
    runs that a [TypeError] stops after "Authentication found" (line 187),
    or after "Authenticated on" (line 188), and that the [catch] ends with
    "No authentication found". *)
Inductive CheckOutput :=
| AuthenticationFound (timestamp : jsval) (expiresAt : option Z) (stillValid : bool)
| NoAuthenticationFound
| NothingPrinted
| FoundThenNoAuthenticationFound
| FoundOnThenNoAuthenticationFound (timestamp : jsval).

(** What [logout] prints. *)
Inductive LogoutOutput :=
| LoggedOut
| NoAuthenticationToClear.

(** [fs.unlink(path)]: removes the file, or rejects when there is none.  As
    for [readFile], a file that is there can be reached. *)
Definition unlink : M World unit := λ w,
  match file w with
  | Some _ => (Val tt, set_file None w)
  | None => (Exc FsError, w)
  end.

Section WithRuntime.
Context `{DateRuntime}.

(** [expiresAt > now], [now] a valid date. *)
Definition date_after (expiresAt : option Z) (now : Z) : bool :=
  match expiresAt with
  | Some e => now <? e
  | None => false
  end.

(** The [TypeError]s of the [try] block end in its [catch], which prints
    "No authentication found" and returns [false] as for any other error:
    reading a property of [null] (line 186), the template literal on
    [authInfo.timestamp] (line 188) and [new Date(authInfo.expiresAt)]
    (line 190). *)
Definition checkAuth : M World (bool * CheckOutput) :=
  try_catch
    (data <- readFile ;;
     authInfo <- JSON_parse data ;;
     match authInfo with
     | VNull => ret (false, NoAuthenticationFound)
     | _ =>
         if truthy (get_prop authInfo "authenticated")
            && truthy (get_prop authInfo "clientId") then
           if ToPrimitive_throws (get_prop authInfo "timestamp") then
             ret (false, FoundThenNoAuthenticationFound)
           else if ToPrimitive_throws (get_prop authInfo "expiresAt") then
             ret (false, FoundOnThenNoAuthenticationFound
                           (get_prop authInfo "timestamp"))
           else
             (let expiresAt := new_Date (get_prop authInfo "expiresAt") in
              now <- Date_now ;;
              ret (true, AuthenticationFound (get_prop authInfo "timestamp")
                           expiresAt (date_after expiresAt now)))
         else ret (false, NothingPrinted)
     end)
    (λ _, ret (false, NoAuthenticationFound)).

Definition logout : M World LogoutOutput :=
  try_catch
    (unlink ;; ret LoggedOut)
    (λ _, ret NoAuthenticationToClear).

End WithRuntime.

End Commands.

(** ** More states and runs named in the properties *)

Module Outcome2.
Import JS Env Graph Async Cli Outcome.

(** How far a caller is: the segments it has behind it. *)
Definition rank (t : Task) : nat :=
  match t with
  | Called => 0
  | AwaitFetch _ => 1
  | AwaitBody _ => 2
  | AwaitWrite _ _ => 3
  | AwaitValid _ => 4
  | Settled _ => 5
  end.

Definition is_called (t : Task) : bool :=
  match t with Called => true | _ => false end.

(** Callers that have not run yet. *)
Definition not_started (ts : list Task) : nat :=
  length (List.filter is_called ts).

(** Callers that have not yet passed the segment that writes the file. *)
Definition before_write (t : Task) : bool :=
  match t with
  | Called | AwaitFetch _ | AwaitBody _ => true
  | _ => false
  end.

Definition not_written (ts : list Task) : nat :=
  length (List.filter before_write ts).

(** The turns of caller [i] in a schedule. *)
Fixpoint turns (i : nat) (schedule : list nat) : nat :=
  match schedule with
  | [] => 0
  | j :: rest => ((if Nat.eqb i j then 1 else 0) + turns i rest)%nat
  end.

(** The interval and the world after [k] passes through the loop of
    [pollForToken] that were answered [authorization_pending] or
    [slow_down]. *)
Fixpoint waited (deviceCode : string) (k : nat) (interval : Z) (w : World) : Z * World :=
  match k with
  | O => (interval, w)
  | S k' =>
      waited deviceCode k'
        (if slow_down (token_endpoint w (token_calls w)) then interval + 5
         else interval)
        (polled deviceCode interval w)
  end.

(** The [slow_down] answers among the [k] answers from request [from]
    on. *)
Fixpoint slow_downs (w : World) (from k : nat) : nat :=
  match k with
  | O => 0
  | S k' =>
      ((if slow_down (token_endpoint w from) then 1 else 0)
       + slow_downs w (S from) k')%nat
  end.

(** The process with another file. *)
Definition with_file (f : option text) (p : Proc) : Proc :=
  {| this := this p; world := set_file f (world p) |}.

(** A server process that starts on world [w]. *)
Definition fresh (w : World) : Proc :=
  {| this := new_GraphService; world := w |}.

End Outcome2.

(** ** More worlds for the examples *)

Module Scenario2.
Import JS Env Graph Async Cli Outcome Scenario Iso.


(** The user waits for one poll and then declines. *)
Definition declined : World :=
  {| file := None; clock := λ _, 1700000000000 - 3600000; ticks := 0;
     token_endpoint := λ n,
       match n with
       | O => Some (oauth_error "authorization_pending")
       | S _ => Some (oauth_error "authorization_declined")
       end;
     devicecode_endpoint := λ _, Some (Success (Some device0));
     disk := λ _, Written; trace := [] |}.

(** The world that the login of [slow_twice] leaves. *)
Definition logged_in : World := snd (authenticate slow_twice).

(** Two callers that take turns. *)
Definition alternate : list nat := [0; 1; 0; 1; 0; 1; 0; 1; 0; 1]%nat.

(** A value that [ToPrimitive] cannot make into a primitive, and the
    record of [authenticate] with it for [timestamp], or for [expiresAt]. *)
Definition no_primitive : jsval := VObj (<["toString" := VNum 1]> ∅).

Definition odd_timestamp : jsval :=
  VObj (<["timestamp" := no_primitive]> (spread record0)).

Definition odd_expiresAt : jsval :=
  VObj (<["expiresAt" := VArr [VStr "2023-11-14T22:13:20.000Z"; no_primitive]]>
          (spread record0)).

(** Two answers of the Graph API to [/me]: a profile, and a profile whose
    [displayName] cannot be made into a primitive. *)
Definition me_ada : M Proc jsval :=
  ret (VObj (<["displayName" := VStr "Ada"]>
            (<["userPrincipalName" := VStr "ada@example.org"]> ∅))).

Definition me_odd : M Proc jsval :=
  ret (VObj (<["displayName" := no_primitive]>
            (<["userPrincipalName" := VStr "ada@example.org"]> ∅))).

End Scenario2.

(** * Properties *)

Import JS Env Graph Async Cli Outcome Coercion Status AuthTool Commands Outcome2.

(** Unfolds the monad and the effects, so that a run on a symbolic state
    reduces to its result. *)
Ltac unfold_js :=
  unfold get_authInfo, get_client, get_isInitialized,
    set_authInfo, set_client, set_isInitialized,
    console, sleep, Date_now, fetch_token, send_token_request,
    settle_token_request, fetch_devicecode, readFile, writeFile,
    start_write, finish_write, toISOString, json, JSON_parse, io,
    try_catch, bind, ret, throw, gets, modify in *.

(** Follows one path through a run: the hypotheses say which way each
    test goes. *)
Ltac use_hyps :=
  repeat match goal with
    | Hx : ?x = _ |- context [?x] => rewrite Hx
    end.

Ltac path :=
  repeat (unfold_js; unfold token_calls, writes in *; cbn; use_hyps).

(** ** Values *)

Lemma get_prop_lookup (v : jsval) (k : string) :
  get_prop v k = default VUndef (spread v !! k).
Proof. destruct v; cbn; try reflexivity; by rewrite lookup_empty. Qed.

(** A value with a truthy property is an object. *)
Lemma truthy_prop_is_object (v : jsval) (k : string) :
  truthy (get_prop v k) = true → ∃ fields, v = VObj fields.
Proof. destruct v; cbn; try discriminate. eauto. Qed.

Lemma refreshToken_is_object (v : jsval) :
  truthy (get_prop v "refreshToken") = true → VObj (spread v) = v.
Proof. intros [fields ->]%truthy_prop_is_object. reflexivity. Qed.

Lemma truthy_prop_truthy (v : jsval) (k : string) :
  truthy (get_prop v k) = true → truthy v = true.
Proof. intros [fields ->]%truthy_prop_is_object. reflexivity. Qed.

(** Reading a property is the same before and after a trip through the
    file: a property that was not written reads as [undefined]. *)
Lemma get_prop_reparse (v : jsval) (k : string) :
  get_prop (JSON_reparse v) k = get_prop v k.
Proof.
  destruct v; try reflexivity. cbn.
  destruct (fields !! k) as [x|] eqn:Hk.
  - destruct (is_undefined x) eqn:Hx.
    + rewrite map_lookup_filter_None_2; [by destruct x|].
      right. intros y Hy. cbn. congruence.
    + erewrite map_lookup_filter_Some_2; eauto.
  - rewrite map_lookup_filter_None_2; [done|]. by left.
Qed.

Section Properties.
Context `{DateRuntime}.

Lemma updated_accessToken info r e t :
  get_prop (updated info r e t) "accessToken" = VStr (access_token r).
Proof. cbn. by simplify_map_eq. Qed.

Lemma updated_refreshToken info r e t :
  get_prop (updated info r e t) "refreshToken" = VStr (refresh_token r).
Proof. cbn. by simplify_map_eq. Qed.

Lemma updated_expiresAt info r e t :
  get_prop (updated info r e t) "expiresAt" = VStr e.
Proof. cbn. by simplify_map_eq. Qed.

Lemma updated_timestamp info r e t :
  get_prop (updated info r e t) "timestamp" = VStr t.
Proof. cbn. by simplify_map_eq. Qed.

(** The other fields are those of the record before. *)
Lemma updated_other info r e t k :
  k ≠ "accessToken" → k ≠ "refreshToken" → k ≠ "expiresAt" → k ≠ "timestamp" →
  get_prop (updated info r e t) k = get_prop info k.
Proof.
  intros. rewrite (get_prop_lookup info). cbn. by simplify_map_eq.
Qed.

(** ** [refreshAccessToken] *)

Lemma refresh_no_token (p : Proc) :
  truthy (get_prop (authInfo (this p)) "refreshToken") = false →
  refreshAccessToken p =
    (Val false,
     {| this := this p;
        world := record (EvLog NoRefreshTokenAvailable) (world p) |}).
Proof.
  intros Hf. unfold refreshAccessToken. unfold_js. rewrite Hf. reflexivity.
Qed.

Lemma refresh_unreachable (p : Proc) :
  truthy (get_prop (authInfo (this p)) "refreshToken") = true →
  token_endpoint (world p) (token_calls (world p)) = None →
  refreshAccessToken p =
    (Val false,
     {| this := this p;
        world :=
          record (EvLog (ErrorRefreshingToken NetworkError))
            (record (EvFetch (RefreshRequest
                       (get_prop (authInfo (this p)) "refreshToken")))
               (world p)) |}).
Proof.
  intros Ht Hr. unfold refreshAccessToken. unfold_js. rewrite Ht. cbn.
  rewrite Hr. reflexivity.
Qed.

Lemma refresh_rejected (p : Proc) status raw body :
  truthy (get_prop (authInfo (this p)) "refreshToken") = true →
  token_endpoint (world p) (token_calls (world p)) = Some (Failure status raw body) →
  refreshAccessToken p =
    (Val false,
     {| this := this p;
        world :=
          record (EvLog (TokenRefreshFailed status raw))
            (record (EvFetch (RefreshRequest
                       (get_prop (authInfo (this p)) "refreshToken")))
               (world p)) |}).
Proof.
  intros Ht Hr. unfold refreshAccessToken. unfold_js. rewrite Ht. cbn.
  rewrite Hr. reflexivity.
Qed.

Lemma refresh_success (p : Proc) (r : TokenResponse) :
  truthy (get_prop (authInfo (this p)) "refreshToken") = true →
  token_endpoint (world p) (token_calls (world p)) = Some (Success (Some r)) →
  Z.abs (clock (world p) (ticks (world p)) + expires_in r * 1000) ≤ 8640000000000000 →
  disk (world p) (writes (world p)) = Written →
  refreshAccessToken p = (Val true, after_refresh p r).
Proof.
  intros Ht Hr Hclip Hd. unfold refreshAccessToken, after_refresh.
  unfold_js. rewrite Ht. cbn. rewrite Hr. cbn.
  unfold TimeClip. rewrite (proj2 (Z.leb_le _ _) Hclip). cbn.
  unfold writes in *. cbn. rewrite Hd. reflexivity.
Qed.

End Properties.

Section Provider.
Context `{DateRuntime}.

(** ** [ensureValidToken] and [getAccessToken] *)

Lemma ensure_no_record (p : Proc) :
  truthy (authInfo (this p)) = false →
  ensureValidToken p = (Val false, p).
Proof.
  intros Hf. unfold ensureValidToken. unfold_js. rewrite Hf. cbn.
  by destruct p.
Qed.

Lemma ensure_fresh (p : Proc) :
  truthy (authInfo (this p)) = true →
  expiring (authInfo (this p)) (clock (world p) (ticks (world p))) = false →
  ensureValidToken p = (Val true, {| this := this p; world := tick (world p) |}).
Proof.
  intros Ht He. unfold ensureValidToken, expiring in *. unfold_js.
  rewrite Ht. cbn. rewrite He. reflexivity.
Qed.

Lemma ensure_expiring (p : Proc) :
  truthy (authInfo (this p)) = true →
  expiring (authInfo (this p)) (clock (world p) (ticks (world p))) = true →
  ensureValidToken p =
    refreshAccessToken
      {| this := this p;
         world := record (EvLog AttemptingRefresh) (tick (world p)) |}.
Proof.
  intros Ht He. unfold ensureValidToken, expiring in *. unfold_js.
  rewrite Ht. cbn. rewrite He. reflexivity.
Qed.

Lemma not_expiring_after (info : jsval) (now e : Z) :
  new_Date (get_prop info "expiresAt") = Some e →
  now + 5 * 60 * 1000 < e →
  expiring info now = false.
Proof.
  intros He Hlt. unfold expiring, TimeClip, date_le. rewrite He.
  destruct (Z.abs (now + 5 * 60 * 1000) <=? 8640000000000000); [|done].
  apply Z.leb_gt. lia.
Qed.

Lemma expiring_before (info : jsval) (now e : Z) :
  new_Date (get_prop info "expiresAt") = Some e →
  Z.abs (now + 5 * 60 * 1000) ≤ 8640000000000000 →
  e ≤ now + 5 * 60 * 1000 →
  expiring info now = true.
Proof.
  intros He Hclip Hle. unfold expiring, TimeClip, date_le. rewrite He.
  rewrite (proj2 (Z.leb_le _ _) Hclip). by apply Z.leb_le.
Qed.

Lemma getAccessToken_after (p : Proc) (isValid : bool) (p' : Proc) :
  ensureValidToken p = (Val isValid, p') →
  getAccessToken p =
    (if negb isValid || negb (truthy (get_prop (authInfo (this p')) "accessToken"))
     then Exc (Error UnableToObtainToken)
     else Val (get_prop (authInfo (this p')) "accessToken"),
     p').
Proof.
  intros He. unfold getAccessToken. unfold bind at 1. rewrite He.
  unfold_js. by case_match.
Qed.

(** C5.  When the record in memory expires strictly later than five minutes
    after the clock reading, [getAccessToken] returns the [accessToken] it
    holds; the service is unchanged and nothing is added to the trace of
    effects: no request to the authorization server, no write. *)
Theorem fresh_token_returned_without_network (p : Proc) (e : Z) :
  new_Date (get_prop (authInfo (this p)) "expiresAt") = Some e →
  clock (world p) (ticks (world p)) + 5 * 60 * 1000 < e →
  truthy (get_prop (authInfo (this p)) "accessToken") = true →
  ∃ p', getAccessToken p = (Val (get_prop (authInfo (this p)) "accessToken"), p')
        ∧ this p' = this p
        ∧ trace (world p') = trace (world p)
        ∧ network_calls (world p') = network_calls (world p).
Proof.
  intros He Hlt Hat.
  exists {| this := this p; world := tick (world p) |}. split; [|done].
  rewrite (getAccessToken_after p true {| this := this p; world := tick (world p) |}).
  - cbn. rewrite Hat. reflexivity.
  - apply ensure_fresh; [by eapply truthy_prop_truthy|by eapply not_expiring_after].
Qed.

(** C9.  With no [refreshToken] in the record, [refreshAccessToken] reports
    failure, says on the console that no refresh token is available, and
    sends nothing to the authorization server; the service and the file are
    as before. *)
Theorem refresh_without_refresh_token (p : Proc) :
  get_prop (authInfo (this p)) "refreshToken" = VUndef →
  ∃ p', refreshAccessToken p = (Val false, p')
        ∧ trace (world p') = EvLog NoRefreshTokenAvailable :: trace (world p)
        ∧ network_calls (world p') = network_calls (world p)
        ∧ this p' = this p
        ∧ file (world p') = file (world p).
Proof.
  intros Hu. eexists. split.
  - apply refresh_no_token. by rewrite Hu.
  - done.
Qed.

(** C10.  When [refreshAccessToken] fails because the record has no usable
    [refreshToken], or because the token endpoint answers with a status that
    is not ok, it returns [false], and the record in memory and the file
    are exactly those before the call. *)
Theorem failed_refresh_changes_nothing (p : Proc) :
  truthy (get_prop (authInfo (this p)) "refreshToken") = false
  ∨ (∃ status raw body,
       token_endpoint (world p) (token_calls (world p))
       = Some (Failure status raw body)) →
  ∃ p', refreshAccessToken p = (Val false, p')
        ∧ authInfo (this p') = authInfo (this p)
        ∧ this p' = this p
        ∧ file (world p') = file (world p)
        ∧ writes (world p') = writes (world p).
Proof.
  intros [Hf | (status & raw & body & Hr)].
  - eexists. split; [by apply refresh_no_token|done].
  - destruct (truthy (get_prop (authInfo (this p)) "refreshToken")) eqn:Ht.
    + eexists. split; [by eapply refresh_rejected|done].
    + eexists. split; [by apply refresh_no_token|done].
Qed.

(** A refresh that returns [true] met a token response, a valid expiry
    date and a write that succeeded. *)
Lemma refresh_true_inv (p p' : Proc) :
  refreshAccessToken p = (Val true, p') →
  ∃ r, token_endpoint (world p) (token_calls (world p)) = Some (Success (Some r))
       ∧ disk (world p) (writes (world p)) = Written
       ∧ p' = after_refresh p r.
Proof.
  unfold refreshAccessToken, after_refresh, token_calls, writes.
  destruct (truthy (get_prop (authInfo (this p)) "refreshToken")) eqn:Hr.
  2:{ path. intros [=]. }
  destruct (token_endpoint (world p) (count is_token_fetch (trace (world p))))
    as [[[r|]|status raw body]|] eqn:Hn.
  2,3,4: path; intros [=].
  destruct (TimeClip (clock (world p) (ticks (world p)) + expires_in r * 1000))
    as [t|] eqn:Hc.
  2:{ path. intros [=]. }
  assert (t = clock (world p) (ticks (world p)) + expires_in r * 1000) as Ht.
  { unfold TimeClip in Hc.
    destruct (Z.abs _ <=? _); [by injection Hc|discriminate Hc]. }
  subst t.
  destruct (disk (world p) (count is_write (trace (world p)))) eqn:Hw.
  - path. intros [= <-]. by exists r.
  - path. intros [=].
Qed.

(** C8.  Every refresh that succeeds ([refreshAccessToken] returns [true])
    got a token response from the token endpoint, and leaves a record that
    holds the [refresh_token] and the [access_token] of that response, with
    [expiresAt] the clock reading plus [expires_in] seconds and [timestamp]
    the clock reading taken for it; the file holds this record when the call
    returns, after one write. *)
Theorem successful_refresh_stores_new_record (p p' : Proc) :
  refreshAccessToken p = (Val true, p') →
  ∃ r : TokenResponse,
    token_endpoint (world p) (token_calls (world p)) = Some (Success (Some r))
    ∧ get_prop (authInfo (this p')) "refreshToken" = VStr (refresh_token r)
    ∧ get_prop (authInfo (this p')) "accessToken" = VStr (access_token r)
    ∧ get_prop (authInfo (this p')) "expiresAt"
      = VStr (Date_toISOString
                (clock (world p) (ticks (world p)) + expires_in r * 1000))
    ∧ get_prop (authInfo (this p')) "timestamp"
      = VStr (Date_toISOString (clock (world p) (S (ticks (world p)))))
    ∧ file (world p') = Some (Json (JSON_reparse (authInfo (this p'))))
    ∧ (∀ k, get_prop (JSON_reparse (authInfo (this p'))) k
            = get_prop (authInfo (this p')) k)
    ∧ writes (world p') = S (writes (world p)).
Proof.
  intros (r & Hn & Hd & ->)%refresh_true_inv. exists r.
  split; [done|].
  unfold after_refresh. cbn [this world authInfo file set_file record].
  rewrite updated_refreshToken, updated_accessToken, updated_expiresAt,
    updated_timestamp.
  repeat split; auto using get_prop_reparse.
Qed.

End Provider.

(** ** Callers in sequence and in a batch *)

Section Callers.
Context `{DateRuntime}.

Lemma run_alone (k : nat) (t : Task) (p : Proc) :
  run (replicate k 0%nat) {| tasks := [t]; proc := p |}
  = {| tasks := [fst (alone k t p)]; proc := snd (alone k t p) |}.
Proof.
  revert t p. induction k as [|k IH]; intros t p; [done|].
  cbn [replicate run alone]. unfold turn at 1.
  cbn [tasks proc lookup list_lookup].
  destruct (resume t p) as [t' p']. cbn. apply IH.
Qed.

(** The task machine agrees with the direct embedding: a caller that no
    other caller interleaves with settles, after its five segments, with the
    result and in the state of [getAccessToken]. *)
Lemma alone_getAccessToken (p : Proc) :
  alone 5 Called p = (Settled (fst (getAccessToken p)), snd (getAccessToken p)).
Proof.
  unfold getAccessToken, ensureValidToken, refreshAccessToken, alone, resume.
  unfold token_calls, writes.
  destruct (truthy (authInfo (this p))) eqn:Ht.
  2:{ unfold segment, refresh_called, caught. path. done. }
  destruct (date_le (new_Date (get_prop (authInfo (this p)) "expiresAt"))
              (TimeClip (clock (world p) (ticks (world p)) + 5 * 60 * 1000)))
    eqn:Hd.
  2:{ destruct (truthy (get_prop (authInfo (this p)) "accessToken")) eqn:Ha;
      unfold segment, refresh_called, caught; path; done. }
  destruct (truthy (get_prop (authInfo (this p)) "refreshToken")) eqn:Hr.
  2:{ unfold segment, refresh_called, caught. path. done. }
  destruct (token_endpoint (world p) (count is_token_fetch (trace (world p))))
    as [[[r|]|status raw body]|] eqn:Hn.
  2,3,4: unfold segment, refresh_called, caught; path; done.
  destruct (TimeClip (clock (world p) (S (ticks (world p))) + expires_in r * 1000))
    as [t|] eqn:Hc.
  2:{ unfold segment, refresh_called, caught; path; done. }
  destruct (disk (world p) (count is_write (trace (world p)))) eqn:Hw;
    unfold segment, refresh_called, caught; path;
    try match goal with |- context [negb (truthy ?v)] => destruct (truthy v) end;
    done.
Qed.

Lemma single_caller (p : Proc) :
  run [0; 0; 0; 0; 0]%nat (batch 1 p)
  = {| tasks := [Settled (fst (getAccessToken p))];
       proc := snd (getAccessToken p) |}.
Proof.
  pose proof (run_alone 5 Called p) as Hrun.
  rewrite alone_getAccessToken in Hrun. exact Hrun.
Qed.







End Callers.

Section Batches.
Context `{DateRuntime}.




End Batches.

Section Counterexamples.
Import Scenario Iso.

Lemma record0_roundtrip : JSON_reparse record0 = record0.
Proof. vm_compute. reflexivity. Qed.



End Counterexamples.

(** ** The device code flow *)

Section Polling.

Lemma poll_once_eq (deviceCode : string) (interval : Z) (w : World) :
  poll_once deviceCode interval w
  = (poll_answer interval (token_endpoint w (token_calls w)),
     polled deviceCode interval w).
Proof.
  unfold poll_once, polled, poll_answer, token_calls. unfold_js. cbn.
  destruct (token_endpoint w _) as [[[r|]|status raw [body|]]|]; cbn; try done.
  repeat case_match; done.
Qed.

Lemma poll_loop_step (deviceCode : string) (attempts : nat) (interval : Z) (w : World) :
  poll_loop deviceCode attempts interval w =
    if decide (attempts < maxAttempts)%nat then
      match poll_answer interval (token_endpoint w (token_calls w)) with
      | Val (Return result) => (Val result, polled deviceCode interval w)
      | Val (Continue interval') =>
          poll_loop deviceCode (S attempts) interval' (polled deviceCode interval w)
      | Exc e => (Exc e, polled deviceCode interval w)
      end
    else (Exc (Error AuthenticationTimedOut), w).
Proof.
  simp poll_loop.
  destruct (decide (attempts < maxAttempts)%nat); simp poll_loop; [|done].
  rewrite poll_once_eq.
  destruct (poll_answer _ _) as [[r|i']|e]; simp poll_loop; done.
Qed.

Lemma poll_answer_waiting (interval : Z) (r : option (Response TokenResponse)) :
  keeps_waiting r = true →
  poll_answer interval r
  = Val (Continue (if slow_down r then interval + 5 else interval)).
Proof.
  destruct r as [[[?|]|status raw [body|]]|]; cbn; try discriminate.
  destruct (String.eqb (error body) "authorization_pending") eqn:Hp; cbn.
  - apply String.eqb_eq in Hp. rewrite Hp. reflexivity.
  - intros ->. reflexivity.
Qed.

Lemma poll_answer_slow_down (interval : Z) (r : option (Response TokenResponse)) :
  slow_down r = true →
  poll_answer interval r = Val (Continue (interval + 5)).
Proof.
  intros Hs. rewrite poll_answer_waiting, Hs; [done|].
  destruct r as [[[?|]|status raw [body|]]|]; cbn in *; try discriminate.
  rewrite Hs. apply orb_true_r.
Qed.

(** Each pass sends one request; the loop sends at most one per attempt
    left. *)
Lemma poll_loop_calls (k : nat) :
  ∀ deviceCode attempts interval w,
    (maxAttempts - attempts = k)%nat →
    (network_calls (snd (poll_loop deviceCode attempts interval w))
     ≤ network_calls w + k)%nat.
Proof.
  induction k as [|k IH]; intros deviceCode attempts interval w Hk;
    rewrite poll_loop_step.
  - destruct (decide _); [lia|]. cbn. lia.
  - destruct (decide _); [|lia].
    destruct (poll_answer _ _) as [[r|i']|e]; cbn [snd].
    + unfold network_calls, polled. cbn. lia.
    + etrans; [apply (IH _ (S attempts)); lia|].
      unfold network_calls, polled. cbn. lia.
    + unfold network_calls, polled. cbn. lia.
Qed.

(** A server that only ever says to keep waiting: the loop gives up when
    [attempts] reaches [maxAttempts], one request per attempt. *)
Lemma poll_loop_times_out (k : nat) :
  ∀ deviceCode attempts interval w,
    (maxAttempts - attempts = k)%nat →
    (∀ j, (j < k)%nat →
       keeps_waiting (token_endpoint w (token_calls w + j)) = true) →
    fst (poll_loop deviceCode attempts interval w) = Exc (Error AuthenticationTimedOut)
    ∧ network_calls (snd (poll_loop deviceCode attempts interval w))
      = (network_calls w + k)%nat.
Proof.
  induction k as [|k IH]; intros deviceCode attempts interval w Hk Hw;
    rewrite poll_loop_step.
  - destruct (decide _); [lia|]. cbn. split; [done|lia].
  - destruct (decide _); [|lia].
    rewrite poll_answer_waiting.
    2:{ specialize (Hw 0%nat). rewrite Nat.add_0_r in Hw. apply Hw. lia. }
    destruct (IH deviceCode (S attempts)
                (if slow_down (token_endpoint w (token_calls w))
                 then interval + 5 else interval)
                (polled deviceCode interval w)) as [Hr Hn].
    + lia.
    + intros j Hj. cbn. specialize (Hw (S j)).
      rewrite Nat.add_succ_r in Hw. apply Hw. lia.
    + split; [done|]. rewrite Hn. unfold network_calls, polled. cbn. lia.
Qed.

(** C6.  [pollForToken] is a total function: the loop ends for every
    server.  It sends at most [maxAttempts] = 100 requests; against a server
    that answers [authorization_pending] or [slow_down] to each of them, it
    sends exactly 100 and throws "Authentication timed out". *)
Theorem pollForToken_stops_at_cap (deviceCode : string) (interval : Z) (w : World) :
  maxAttempts = 100%nat
  ∧ (network_calls (snd (pollForToken deviceCode interval w))
     ≤ network_calls w + maxAttempts)%nat
  ∧ ((∀ j, (j < maxAttempts)%nat →
        keeps_waiting (token_endpoint w (token_calls w + j)) = true) →
     fst (pollForToken deviceCode interval w) = Exc (Error AuthenticationTimedOut)
     ∧ network_calls (snd (pollForToken deviceCode interval w))
       = (network_calls w + maxAttempts)%nat).
Proof.
  split; [done|]. split.
  - apply poll_loop_calls. lia.
  - intros Hw. apply poll_loop_times_out; [lia|done].
Qed.

End Polling.

Section Authenticate.
Context `{DateRuntime}.

Lemma stored_roundtrip (timestamp expiresAt : string) (r : TokenResponse) :
  JSON_reparse (stored timestamp expiresAt r) = stored timestamp expiresAt r.
Proof.
  unfold stored, JSON_reparse. f_equal.
Qed.

Lemma getDeviceCode_success (w : World) (d : DeviceCodeResponse) :
  devicecode_endpoint w (devicecode_calls w) = Some (Success (Some d)) →
  getDeviceCode w = (Val d, record (EvFetch DeviceCodeRequest) w).
Proof.
  intros Hd. unfold getDeviceCode. unfold_js. rewrite Hd. reflexivity.
Qed.

(** A [slow_down] answer adds five seconds to the interval and the loop
    goes on with the next attempt. *)
Lemma poll_loop_slow_down (deviceCode : string) (attempts : nat) (interval : Z) (w : World) :
  (attempts < maxAttempts)%nat →
  slow_down (token_endpoint w (token_calls w)) = true →
  poll_loop deviceCode attempts interval w
  = poll_loop deviceCode (S attempts) (interval + 5) (polled deviceCode interval w).
Proof.
  intros Ha Hs. rewrite poll_loop_step.
  destruct (decide _); [|lia]. by rewrite poll_answer_slow_down.
Qed.

Lemma poll_loop_success (deviceCode : string) (attempts : nat) (interval : Z) (w : World) r :
  (attempts < maxAttempts)%nat →
  token_endpoint w (token_calls w) = Some (Success (Some r)) →
  poll_loop deviceCode attempts interval w = (Val r, polled deviceCode interval w).
Proof.
  intros Ha Hs. rewrite poll_loop_step.
  destruct (decide _); [|lia]. by rewrite Hs.
Qed.

(** C7.  A [slow_down] answer makes the loop go on with the interval five
    seconds longer.  When the flow gets [slow_down] twice and then a token,
    [authenticate] waits [interval], [interval + 5] and [interval + 10]
    seconds before its three requests, and writes the record once: the file
    then holds the record built from the token. *)
Theorem slow_down_adds_five_seconds :
  (∀ deviceCode attempts interval w,
     (attempts < maxAttempts)%nat →
     slow_down (token_endpoint w (token_calls w)) = true →
     poll_loop deviceCode attempts interval w
     = poll_loop deviceCode (S attempts) (interval + 5)
         (polled deviceCode interval w))
  ∧ (∀ (w : World) (d : DeviceCodeResponse) (tok : TokenResponse),
       devicecode_endpoint w (devicecode_calls w) = Some (Success (Some d)) →
       slow_down (token_endpoint w (token_calls w)) = true →
       slow_down (token_endpoint w (S (token_calls w))) = true →
       token_endpoint w (S (S (token_calls w))) = Some (Success (Some tok)) →
       Z.abs (clock w (ticks w) + expires_in tok * 1000) ≤ 8640000000000000 →
       disk w (writes w) = Written →
       ∃ w', authenticate w = (Val tt, w')
         ∧ sleeps (trace w')
           = (sleeps (trace w)
              ++ [interval d * 1000; (interval d + 5) * 1000;
                  (interval d + 10) * 1000])%list
         ∧ writes w' = S (writes w)
         ∧ file w'
           = Some (Json (stored (Date_toISOString (clock w (S (ticks w))))
                           (Date_toISOString
                              (clock w (ticks w) + expires_in tok * 1000))
                           tok))).
Proof.
  split; [exact poll_loop_slow_down|].
  intros w d tok Hd Hs1 Hs2 Hok Hclip Hdisk.
  unfold authenticate, pollForToken. unfold bind at 1, try_catch.
  rewrite (getDeviceCode_success w d Hd).
  unfold bind at 1. unfold console at 1, modify at 1.
  unfold bind at 1.
  rewrite poll_loop_slow_down by (done || (unfold maxAttempts; lia)).
  rewrite poll_loop_slow_down by (done || (unfold maxAttempts; lia)).
  rewrite (poll_loop_success _ _ _ _ tok) by (done || (unfold maxAttempts; lia)).
  unfold_js. cbn. unfold TimeClip.
  rewrite (proj2 (Z.leb_le _ _) Hclip). cbn.
  unfold writes in *. cbn. rewrite Hdisk. cbn.
  eexists. split; [reflexivity|]. cbn.
  replace (interval d + 5 + 5) with (interval d + 10) by lia.
  rewrite <- !app_assoc. repeat split.
Qed.

End Authenticate.

(** ** Loading the document *)

Lemma get_prop_without (k j : string) (v : jsval) :
  j ≠ k → get_prop (without k v) j = get_prop v j.
Proof. intros Hne. destruct v; try done. cbn. by rewrite lookup_delete_ne. Qed.

Lemma truthy_without (k : string) (v : jsval) : truthy (without k v) = truthy v.
Proof. by destruct v. Qed.

Lemma spread_without (k : string) (v : jsval) :
  spread (without k v) = delete k (spread v).
Proof. destruct v; cbn; try by rewrite delete_empty. done. Qed.

Lemma reparse_without (k : string) (v : jsval) :
  JSON_reparse (without k v) = without k (JSON_reparse v).
Proof. destruct v; try done. cbn. by rewrite map_filter_delete. Qed.

Lemma count_without (k : string) (q : Event → bool) (tr : list Event) :
  (∀ doc, q (EvWrite (without k doc)) = q (EvWrite doc)) →
  count q (without_event k <$> tr) = count q tr.
Proof.
  intros Hq. induction tr as [|e tr IH]; [done|].
  cbn. rewrite IH. by destruct e; cbn; rewrite ?Hq.
Qed.

Lemma known_field_false (k : string) :
  known_field k = false →
  k ≠ "authenticated" ∧ k ≠ "timestamp" ∧ k ≠ "expiresAt"
  ∧ k ≠ "accessToken" ∧ k ≠ "refreshToken".
Proof.
  unfold known_field. intros Hk%bool_decide_eq_false.
  repeat split; intros ->; apply Hk; set_solver.
Qed.

Section Loading.
Context `{DateRuntime}.

Lemma initialize_once (p : Proc) :
  isInitialized (this p) = true → initializeClient p = (Val tt, p).
Proof. intros Hi. unfold initializeClient. unfold_js. by rewrite Hi. Qed.

Lemma initialize_no_file (p : Proc) :
  isInitialized (this p) = false →
  file (world p) = None →
  initializeClient p = (Val tt, logged (FailedToInitialize FsError) p).
Proof.
  intros Hi Hf. unfold initializeClient. unfold_js. rewrite Hi. cbn.
  by rewrite Hf.
Qed.

Lemma initialize_malformed (p : Proc) :
  isInitialized (this p) = false →
  file (world p) = Some Malformed →
  initializeClient p = (Val tt, logged (FailedToInitialize SyntaxError) p).
Proof.
  intros Hi Hf. unfold initializeClient. unfold_js. rewrite Hi. cbn.
  by rewrite Hf.
Qed.

Lemma initialize_document (p : Proc) (doc : jsval) :
  isInitialized (this p) = false →
  file (world p) = Some (Json doc) →
  initializeClient p =
    if truthy (get_prop doc "authenticated") && truthy (get_prop doc "accessToken")
    then
      match ensureValidToken (loaded doc p) with
      | (Val true, p') => (Val tt, ready p')
      | (Val false, p') => (Val tt, logged UnableToRefreshToken p')
      | (Exc e, p') => (Val tt, logged (FailedToInitialize e) p')
      end
    else (Val tt, loaded doc p).
Proof.
  intros Hi Hf. unfold initializeClient.
  generalize ensureValidToken. intros ensure.
  unfold_js. rewrite Hi. cbn. rewrite Hf. cbn.
  destruct (truthy (get_prop doc "authenticated") && truthy (get_prop doc "accessToken"));
    [|done].
  fold (loaded doc p).
  destruct (ensure (loaded doc p)) as [[[]|e] p']; done.
Qed.

Lemma getClient_after (p p' : Proc) :
  initializeClient p = (Val tt, p') →
  getClient p =
    (match client (this p') with
     | Some c => Val c
     | None => Exc (Error NotAuthenticatedRunCli)
     end, p').
Proof.
  intros Hi. unfold getClient. unfold bind at 1. rewrite Hi.
  unfold_js. by destruct (client (this p')).
Qed.

(** Without [authenticated] or without [accessToken], the document is not
    used: no client, no request to the authorization server. *)
Lemma getClient_incomplete (p : Proc) (doc : jsval) :
  isInitialized (this p) = false →
  client (this p) = None →
  file (world p) = Some (Json doc) →
  truthy (get_prop doc "authenticated") = false
  ∨ truthy (get_prop doc "accessToken") = false →
  getClient p = (Exc (Error NotAuthenticatedRunCli), loaded doc p).
Proof.
  intros Hi Hc Hf Hm.
  rewrite (getClient_after p (loaded doc p)).
  - cbn. by rewrite Hc.
  - rewrite (initialize_document p doc Hi Hf).
    destruct Hm as [-> | ->]; [done|]. by rewrite andb_false_r.
Qed.

(** *** A field the service does not know *)

Lemma updated_without (k : string) info r e t :
  known_field k = false →
  updated (without k info) r e t = without k (updated info r e t).
Proof.
  intros (? & ? & ? & ? & ?)%known_field_false. unfold updated. cbn.
  rewrite spread_without. f_equal.
  by rewrite !delete_insert_ne.
Qed.

#[local] Arguments JSON_reparse : simpl never.

Ltac without_conditions :=
  rewrite ?get_prop_without, ?truthy_without, ?count_without by done.

Ltac both :=
  repeat (unfold_js; unfold token_calls, writes in *; cbn;
          without_conditions; use_hyps).

Lemma refresh_without (k : string) (p : Proc) :
  known_field k = false →
  refreshAccessToken (without_proc k p)
  = (fst (refreshAccessToken p), without_proc k (snd (refreshAccessToken p))).
Proof.
  intros Hk. pose proof (known_field_false k Hk) as (? & ? & ? & ? & ?).
  unfold refreshAccessToken.
  destruct (truthy (get_prop (authInfo (this p)) "refreshToken")) eqn:Hr.
  2:{ both. reflexivity. }
  destruct (token_endpoint (world p) (count is_token_fetch (trace (world p))))
    as [[[r|]|status raw body]|] eqn:Hn.
  2,3,4: both; reflexivity.
  destruct (TimeClip (clock (world p) (ticks (world p)) + expires_in r * 1000))
    as [t|] eqn:Hc.
  2:{ both; reflexivity. }
  destruct (disk (world p) (count is_write (trace (world p)))) eqn:Hw.
  - both. rewrite updated_without by done.
    rewrite reparse_without. reflexivity.
  - both. rewrite updated_without by done. reflexivity.
Qed.

Lemma ensure_without (k : string) (p : Proc) :
  known_field k = false →
  ensureValidToken (without_proc k p)
  = (fst (ensureValidToken p), without_proc k (snd (ensureValidToken p))).
Proof.
  intros Hk. pose proof (known_field_false k Hk) as (? & ? & ? & ? & ?).
  destruct (truthy (authInfo (this p))) eqn:Ht.
  2:{ rewrite (ensure_no_record (without_proc k p))
        by (cbn; by rewrite truthy_without).
      by rewrite (ensure_no_record p). }
  assert (truthy (authInfo (this (without_proc k p))) = true) as Ht'
    by (cbn; by rewrite truthy_without).
  assert (expiring (authInfo (this (without_proc k p)))
            (clock (world (without_proc k p)) (ticks (world (without_proc k p))))
          = expiring (authInfo (this p)) (clock (world p) (ticks (world p))))
    as He' by (unfold expiring; cbn; by rewrite get_prop_without).
  destruct (expiring (authInfo (this p)) (clock (world p) (ticks (world p))))
    eqn:He.
  - rewrite (ensure_expiring (without_proc k p)), (ensure_expiring p) by done.
    apply (refresh_without k
             {| this := this p;
                world := record (EvLog AttemptingRefresh) (tick (world p)) |} Hk).
  - by rewrite (ensure_fresh (without_proc k p)), (ensure_fresh p).
Qed.

Lemma getAccessToken_without (k : string) (p : Proc) :
  known_field k = false →
  getAccessToken (without_proc k p)
  = (fst (getAccessToken p), without_proc k (snd (getAccessToken p))).
Proof.
  intros Hk. pose proof (known_field_false k Hk) as (? & ? & ? & ? & ?).
  destruct (ensureValidToken p) as [[isValid|e] p'] eqn:He.
  - rewrite (getAccessToken_after p isValid p' He).
    rewrite (getAccessToken_after (without_proc k p) isValid (without_proc k p')).
    + cbn. by rewrite get_prop_without.
    + by rewrite ensure_without, He.
  - unfold getAccessToken, bind. rewrite ensure_without, He by done.
    reflexivity.
Qed.

Lemma initializeClient_without (k : string) (p : Proc) :
  known_field k = false →
  initializeClient (without_proc k p)
  = (fst (initializeClient p), without_proc k (snd (initializeClient p))).
Proof.
  intros Hk. pose proof (known_field_false k Hk) as (? & ? & ? & ? & ?).
  destruct (isInitialized (this p)) eqn:Hi.
  { by rewrite (initialize_once (without_proc k p)), (initialize_once p). }
  destruct (file (world p)) as [[|doc]|] eqn:Hf.
  - rewrite (initialize_malformed (without_proc k p)), (initialize_malformed p);
      try done. cbn. by rewrite Hf.
  - rewrite (initialize_document (without_proc k p) (without k doc)),
      (initialize_document p doc); try done.
    2:{ cbn. by rewrite Hf. }
    rewrite !get_prop_without by done.
    destruct (truthy (get_prop doc "authenticated") && truthy (get_prop doc "accessToken"));
      [|done].
    change (loaded (without k doc) (without_proc k p))
      with (without_proc k (loaded doc p)).
    rewrite ensure_without by done.
    destruct (ensureValidToken (loaded doc p)) as [[[]|e] p']; done.
  - rewrite (initialize_no_file (without_proc k p)), (initialize_no_file p);
      try done. cbn. by rewrite Hf.
Qed.

Lemma getClient_without (k : string) (p : Proc) :
  known_field k = false →
  getClient (without_proc k p)
  = (fst (getClient p), without_proc k (snd (getClient p))).
Proof.
  intros Hk. unfold getClient, bind.
  rewrite initializeClient_without by done.
  destruct (initializeClient p) as [[[]|e] p']; cbn; [|done].
  unfold_js. cbn. by destruct (client (this p')).
Qed.

End Loading.

Section Forward_readable.
Context `{DateRuntime}.

Lemma getClient_no_refreshToken (p : Proc) (doc : jsval) :
  isInitialized (this p) = false →
  client (this p) = None →
  file (world p) = Some (Json doc) →
  truthy (get_prop doc "authenticated") = true →
  truthy (get_prop doc "accessToken") = true →
  truthy (get_prop doc "refreshToken") = false →
  expiring doc (clock (world p) (ticks (world p))) = true →
  getClient p
  = (Exc (Error NotAuthenticatedRunCli),
     logged UnableToRefreshToken
       (logged NoRefreshTokenAvailable
          (logged AttemptingRefresh
             {| this := this (loaded doc p); world := tick (world p) |}))).
Proof.
  intros Hi Hc Hf Ha Ht Hr He.
  destruct (truthy_prop_is_object doc "accessToken" Ht) as [fields ->].
  erewrite getClient_after.
  2:{ rewrite (initialize_document p (VObj fields) Hi Hf), Ha, Ht. cbn [andb].
      rewrite (ensure_expiring (loaded (VObj fields) p)); [|done|exact He].
      rewrite refresh_no_token; [reflexivity|exact Hr]. }
  cbn. by rewrite Hc.
Qed.

Lemma getClient_not_expiring (p : Proc) (doc : jsval) :
  isInitialized (this p) = false →
  file (world p) = Some (Json doc) →
  truthy (get_prop doc "authenticated") = true →
  truthy (get_prop doc "accessToken") = true →
  expiring doc (clock (world p) (ticks (world p))) = false →
  getClient p
  = (Val GraphClient,
     ready {| this := this (loaded doc p); world := tick (world p) |}).
Proof.
  intros Hi Hf Ha Ht He.
  destruct (truthy_prop_is_object doc "accessToken" Ht) as [fields ->].
  erewrite getClient_after.
  2:{ rewrite (initialize_document p (VObj fields) Hi Hf), Ha, Ht. cbn [andb].
      rewrite (ensure_fresh (loaded (VObj fields) p)); [reflexivity|done|exact He]. }
  reflexivity.
Qed.

Lemma expiring_no_expiresAt (doc : jsval) (now : Z) :
  get_prop doc "expiresAt" = VUndef → expiring doc now = false.
Proof. intros Hu. unfold expiring. by rewrite Hu. Qed.

(** C4, as the code has it.  A field the service does not know is ignored:
    on a world from which the field is erased, [getClient] and
    [getAccessToken] give the same result and leave the same state with
    the field erased, so the field takes part in no decision and no
    request.  A document without [authenticated] or without [accessToken]
    is treated as no document: [getClient] fails with "Not authenticated",
    no client is made and nothing is sent.  A document that has both but no
    [refreshToken] is treated as no document when its [expiresAt] is not
    later than five minutes after the clock reading at load: the refresh
    tried then gives up before any request and no client is made.  A
    document that has both and whose [expiresAt] is missing, or makes a
    [Date] without a [TypeError] that is invalid or later than that, is used
    as it is, whatever else it holds or lacks ([refreshToken], [clientId],
    [timestamp]): the client is made, the record in memory is the document,
    and nothing is sent or written. *)
Theorem loading_ignores_unknown_fields :
  (∀ (k : string) (p : Proc),
     known_field k = false →
     getClient (without_proc k p)
     = (fst (getClient p), without_proc k (snd (getClient p)))
     ∧ getAccessToken (without_proc k p)
       = (fst (getAccessToken p), without_proc k (snd (getAccessToken p))))
  ∧ (∀ (p : Proc) (doc : jsval),
       isInitialized (this p) = false →
       client (this p) = None →
       file (world p) = Some (Json doc) →
       get_prop doc "authenticated" = VUndef ∨ get_prop doc "accessToken" = VUndef →
       ∃ p', getClient p = (Exc (Error NotAuthenticatedRunCli), p')
         ∧ isAuthenticated (this p') = false
         ∧ trace (world p') = trace (world p)
         ∧ network_calls (world p') = network_calls (world p))
  ∧ (∀ (p : Proc) (doc : jsval),
       isInitialized (this p) = false →
       client (this p) = None →
       file (world p) = Some (Json doc) →
       truthy (get_prop doc "authenticated") = true →
       truthy (get_prop doc "accessToken") = true →
       get_prop doc "refreshToken" = VUndef →
       expiring doc (clock (world p) (ticks (world p))) = true →
       ∃ p', getClient p = (Exc (Error NotAuthenticatedRunCli), p')
         ∧ isAuthenticated (this p') = false
         ∧ network_calls (world p') = network_calls (world p)
         ∧ writes (world p') = writes (world p)
         ∧ file (world p') = file (world p))
  ∧ (∀ (p : Proc) (doc : jsval),
       isInitialized (this p) = false →
       file (world p) = Some (Json doc) →
       truthy (get_prop doc "authenticated") = true →
       truthy (get_prop doc "accessToken") = true →
       get_prop doc "expiresAt" = VUndef
       ∨ (ToPrimitive_throws (get_prop doc "expiresAt") = false
          ∧ expiring doc (clock (world p) (ticks (world p))) = false) →
       ∃ p', getClient p = (Val GraphClient, p')
         ∧ isAuthenticated (this p') = true
         ∧ authInfo (this p') = doc
         ∧ trace (world p') = trace (world p)
         ∧ file (world p') = file (world p)).
Proof.
  split; [|split; [|split]].
  - intros k p Hk. split.
    + by apply getClient_without.
    + by apply getAccessToken_without.
  - intros p doc Hi Hc Hf Hm. exists (loaded doc p). split.
    + apply getClient_incomplete; try done.
      destruct Hm as [-> | ->]; auto.
    + cbn. by rewrite Hc.
  - intros p doc Hi Hc Hf Ha Ht Hr He. eexists. split.
    + apply getClient_no_refreshToken; try done. by rewrite Hr.
    + cbn. by rewrite Hc.
  - intros p doc Hi Hf Ha Ht He. eexists. split.
    + apply getClient_not_expiring; try done.
      destruct He as [Hu | [_ He]]; [by apply expiring_no_expiresAt|done].
    + done.
Qed.

End Forward_readable.

(** ** The properties on concrete documents and servers *)

Section Examples.
Import Scenario Iso.

Lemma toISOString_epoch : toISOString 0 = "1970-01-01T00:00:00.000Z".
Proof. vm_compute. reflexivity. Qed.

Lemma toISOString_expiry : toISOString 1700000000000 = "2023-11-14T22:13:20.000Z".
Proof. vm_compute. reflexivity. Qed.

Lemma toISOString_leap_day : toISOString 951782400123 = "2000-02-29T00:00:00.123Z".
Proof. vm_compute. reflexivity. Qed.

Lemma toISOString_before_epoch : toISOString (-1) = "1969-12-31T23:59:59.999Z".
Proof. vm_compute. reflexivity. Qed.

Lemma parse_expiry : parse "2023-11-14T22:13:20.000Z" = Some 1700000000000.
Proof. vm_compute. reflexivity. Qed.

Lemma parse_no_such_day : parse "2023-02-30T22:13:20.000Z" = None.
Proof. vm_compute. reflexivity. Qed.

(** C4 fails as stated.  A document without [refreshToken], and one
    without [expiresAt], are loaded and their [accessToken] is handed out;
    the one without [expiresAt] still is more than three years after the
    token was issued. *)
Lemma partial_document_is_used :
  fst (getClient {| this := new_GraphService;
                    world := holding no_refreshToken 1699996400000 |})
  = Val GraphClient
  ∧ fst (getAccessToken (started (holding no_refreshToken 1699996400000)))
    = Val (VStr "at0")
  ∧ fst (getClient {| this := new_GraphService;
                      world := holding no_expiresAt 1800000000000 |})
    = Val GraphClient
  ∧ fst (getAccessToken (started (holding no_expiresAt 1800000000000)))
    = Val (VStr "at0")
  ∧ network_calls
      (world (snd (getAccessToken (started (holding no_expiresAt 1800000000000)))))
    = 0%nat.
Proof. vm_compute. repeat split; reflexivity. Qed.

Lemma loading_ignores_unknown_fields_witness :
  (getClient (without_proc "tenant"
                {| this := new_GraphService;
                   world := holding with_tenant 1699996400000 |})
   = (fst (getClient {| this := new_GraphService;
                        world := holding with_tenant 1699996400000 |}),
      without_proc "tenant"
        (snd (getClient {| this := new_GraphService;
                           world := holding with_tenant 1699996400000 |}))))
  ∧ (∃ p', getClient {| this := new_GraphService;
                        world := holding no_accessToken 1699996400000 |}
           = (Exc (Error NotAuthenticatedRunCli), p')
       ∧ isAuthenticated (this p') = false
       ∧ trace (world p') = []
       ∧ network_calls (world p') = 0%nat)
  ∧ (∃ p', getClient {| this := new_GraphService;
                        world := holding no_refreshToken 1699999700000 |}
           = (Exc (Error NotAuthenticatedRunCli), p')
       ∧ isAuthenticated (this p') = false
       ∧ network_calls (world p') = 0%nat
       ∧ writes (world p') = 0%nat
       ∧ file (world p') = Some (Json no_refreshToken))
  ∧ (∃ p', getClient {| this := new_GraphService;
                        world := holding no_expiresAt 1800000000000 |}
           = (Val GraphClient, p')
       ∧ isAuthenticated (this p') = true
       ∧ authInfo (this p') = no_expiresAt
       ∧ trace (world p') = []
       ∧ file (world p') = Some (Json no_expiresAt))
  ∧ (∃ p', getClient {| this := new_GraphService;
                        world := holding no_refreshToken 1699996400000 |}
           = (Val GraphClient, p')
       ∧ isAuthenticated (this p') = true
       ∧ authInfo (this p') = no_refreshToken
       ∧ trace (world p') = []
       ∧ file (world p') = Some (Json no_refreshToken)).
Proof.
  split; [|split; [|split; [|split]]].
  - apply (proj1 loading_ignores_unknown_fields "tenant"). reflexivity.
  - apply (proj1 (proj2 loading_ignores_unknown_fields)
             {| this := new_GraphService;
                world := holding no_accessToken 1699996400000 |}
             no_accessToken); try reflexivity.
    right. vm_compute. reflexivity.
  - apply (proj1 (proj2 (proj2 loading_ignores_unknown_fields))
             {| this := new_GraphService;
                world := holding no_refreshToken 1699999700000 |}
             no_refreshToken); vm_compute; reflexivity.
  - apply (proj2 (proj2 (proj2 loading_ignores_unknown_fields))
             {| this := new_GraphService;
                world := holding no_expiresAt 1800000000000 |}
             no_expiresAt); try (vm_compute; reflexivity).
    left. vm_compute. reflexivity.
  - apply (proj2 (proj2 (proj2 loading_ignores_unknown_fields))
             {| this := new_GraphService;
                world := holding no_refreshToken 1699996400000 |}
             no_refreshToken); try (vm_compute; reflexivity).
    right. vm_compute. split; reflexivity.
Defined.

Lemma fresh_token_returned_without_network_witness :
  ∃ p', getAccessToken (started (holding record0 1699996400000))
        = (Val (get_prop (authInfo (this (started (holding record0 1699996400000))))
                  "accessToken"), p')
    ∧ this p' = this (started (holding record0 1699996400000))
    ∧ trace (world p') = trace (world (started (holding record0 1699996400000)))
    ∧ network_calls (world p')
      = network_calls (world (started (holding record0 1699996400000))).
Proof.
  apply (fresh_token_returned_without_network
           (started (holding record0 1699996400000)) 1700000000000);
    vm_compute; reflexivity.
Defined.

Lemma refresh_without_refresh_token_witness :
  ∃ p', refreshAccessToken (started (holding no_refreshToken 1699996400000))
        = (Val false, p')
    ∧ trace (world p')
      = EvLog NoRefreshTokenAvailable
        :: trace (world (started (holding no_refreshToken 1699996400000)))
    ∧ network_calls (world p')
      = network_calls (world (started (holding no_refreshToken 1699996400000)))
    ∧ this p' = this (started (holding no_refreshToken 1699996400000))
    ∧ file (world p')
      = file (world (started (holding no_refreshToken 1699996400000))).
Proof.
  apply (refresh_without_refresh_token
           (started (holding no_refreshToken 1699996400000))).
  vm_compute. reflexivity.
Defined.

Lemma failed_refresh_changes_nothing_witness :
  ∃ p', refreshAccessToken (started revoked) = (Val false, p')
    ∧ authInfo (this p') = authInfo (this (started revoked))
    ∧ this p' = this (started revoked)
    ∧ file (world p') = file (world (started revoked))
    ∧ writes (world p') = writes (world (started revoked)).
Proof.
  apply (failed_refresh_changes_nothing (started revoked)).
  right. exists 400, "invalid_grant",
    (Some {| error := "invalid_grant";
             error_description := "The refresh token was revoked" |}).
  reflexivity.
Defined.

Lemma successful_refresh_stores_new_record_witness :
  ∃ r : TokenResponse,
    token_endpoint (world (started rotating)) (token_calls (world (started rotating)))
    = Some (Success (Some r))
    ∧ get_prop (authInfo (this (after_refresh (started rotating) token1))) "refreshToken"
      = VStr (refresh_token r)
    ∧ get_prop (authInfo (this (after_refresh (started rotating) token1))) "accessToken"
      = VStr (access_token r)
    ∧ get_prop (authInfo (this (after_refresh (started rotating) token1))) "expiresAt"
      = VStr (Date_toISOString
                (clock (world (started rotating)) (ticks (world (started rotating)))
                 + expires_in r * 1000))
    ∧ get_prop (authInfo (this (after_refresh (started rotating) token1))) "timestamp"
      = VStr (Date_toISOString
                (clock (world (started rotating))
                   (S (ticks (world (started rotating))))))
    ∧ file (world (after_refresh (started rotating) token1))
      = Some (Json (JSON_reparse
                      (authInfo (this (after_refresh (started rotating) token1)))))
    ∧ (∀ k, get_prop (JSON_reparse
                        (authInfo (this (after_refresh (started rotating) token1)))) k
            = get_prop (authInfo (this (after_refresh (started rotating) token1))) k)
    ∧ writes (world (after_refresh (started rotating) token1))
      = S (writes (world (started rotating))).
Proof.
  apply (successful_refresh_stores_new_record (started rotating)
           (after_refresh (started rotating) token1)).
  apply refresh_success.
  - reflexivity.
  - reflexivity.
  - vm_compute. discriminate.
  - reflexivity.
Defined.

(** A refresh against the rotating server, run: the new tokens, an expiry
    one hour after the clock reading, and the same record in the file. *)
Lemma refresh_run :
  fst (refreshAccessToken (started rotating)) = Val true
  ∧ get_prop (authInfo (this (snd (refreshAccessToken (started rotating)))))
      "refreshToken" = VStr "rt1"
  ∧ get_prop (authInfo (this (snd (refreshAccessToken (started rotating)))))
      "expiresAt" = VStr "2023-11-14T23:13:20.000Z"
  ∧ get_prop (authInfo (this (snd (refreshAccessToken (started rotating)))))
      "timestamp" = VStr "2023-11-14T22:13:20.000Z"
  ∧ file (world (snd (refreshAccessToken (started rotating))))
    = Some (Json (authInfo (this (snd (refreshAccessToken (started rotating)))))).
Proof. vm_compute. repeat split; reflexivity. Qed.



Lemma pollForToken_stops_at_cap_witness :
  fst (pollForToken "device0" 5 waiting) = Exc (Error AuthenticationTimedOut)
  ∧ network_calls (snd (pollForToken "device0" 5 waiting))
    = (network_calls waiting + maxAttempts)%nat.
Proof.
  apply (pollForToken_stops_at_cap "device0" 5 waiting).
  intros j Hj. reflexivity.
Defined.

Lemma slow_down_adds_five_seconds_witness :
  ∃ w', authenticate slow_twice = (Val tt, w')
    ∧ sleeps (trace w')
      = (sleeps (trace slow_twice)
         ++ [interval device0 * 1000; (interval device0 + 5) * 1000;
             (interval device0 + 10) * 1000])%list
    ∧ writes w' = S (writes slow_twice)
    ∧ file w'
      = Some (Json (stored (Date_toISOString (clock slow_twice (S (ticks slow_twice))))
                      (Date_toISOString
                         (clock slow_twice (ticks slow_twice)
                          + expires_in token1 * 1000))
                      token1)).
Proof.
  apply (proj2 slow_down_adds_five_seconds slow_twice device0 token1).
  - reflexivity.
  - reflexivity.
  - reflexivity.
  - reflexivity.
  - vm_compute. discriminate.
  - reflexivity.
Defined.

(** The flow of C7 run as a whole: one request for the device code, three
    for the token, one write. *)
Lemma slow_twice_run :
  fst (authenticate slow_twice) = Val tt
  ∧ sleeps (trace (snd (authenticate slow_twice))) = [5000; 10000; 15000]
  ∧ network_calls (snd (authenticate slow_twice)) = 4%nat
  ∧ writes (snd (authenticate slow_twice)) = 1%nat.
Proof. vm_compute. repeat split; reflexivity. Qed.

End Examples.

(** * More properties of the code *)

(** ** What a refresh can do *)

Section Safety.
Context `{DateRuntime}.

Ltac bounded :=
  do 2 eexists; split; [reflexivity|];
  unfold network_calls, devicecode_calls, writes; cbn;
  repeat split; lia.

Lemma refresh_returns (p : Proc) :
  ∃ b p', refreshAccessToken p = (Val b, p')
    ∧ (network_calls (world p') ≤ network_calls (world p) + 1)%nat
    ∧ (network_calls (world p) ≤ network_calls (world p'))%nat
    ∧ (writes (world p') ≤ writes (world p) + 1)%nat
    ∧ devicecode_calls (world p') = devicecode_calls (world p)
    ∧ client (this p') = client (this p)
    ∧ isInitialized (this p') = isInitialized (this p).
Proof.
  unfold refreshAccessToken.
  destruct (truthy (get_prop (authInfo (this p)) "refreshToken")) eqn:Hr.
  2:{ path. bounded. }
  destruct (token_endpoint (world p) (count is_token_fetch (trace (world p))))
    as [[[r|]|status raw body]|] eqn:Hn.
  2,3,4: path; bounded.
  destruct (TimeClip (clock (world p) (ticks (world p)) + expires_in r * 1000))
    as [t|] eqn:Hc.
  2:{ path. bounded. }
  destruct (disk (world p) (count is_write (trace (world p)))) eqn:Hw;
    path; bounded.
Qed.

(** X1.  [refreshAccessToken] never throws: whatever the record, the
    server, the clock and the disk do, it returns a boolean.  It sends at
    most one request, none of them to the device code endpoint, writes the
    file at most once, and leaves [client] and [isInitialized] alone. *)
Theorem refreshAccessToken_never_throws (p : Proc) :
  ∃ b p', refreshAccessToken p = (Val b, p')
    ∧ (network_calls (world p') ≤ network_calls (world p) + 1)%nat
    ∧ (writes (world p') ≤ writes (world p) + 1)%nat
    ∧ devicecode_calls (world p') = devicecode_calls (world p)
    ∧ client (this p') = client (this p)
    ∧ isInitialized (this p') = isInitialized (this p).
Proof.
  destruct (refresh_returns p) as (b & p' & ? & ? & ? & ? & ? & ? & ?).
  by exists b, p'.
Qed.

Lemma ensure_returns (p : Proc) :
  ∃ b p', ensureValidToken p = (Val b, p')
    ∧ (network_calls (world p') ≤ network_calls (world p) + 1)%nat
    ∧ (network_calls (world p) ≤ network_calls (world p'))%nat
    ∧ (writes (world p') ≤ writes (world p) + 1)%nat
    ∧ devicecode_calls (world p') = devicecode_calls (world p)
    ∧ client (this p') = client (this p)
    ∧ isInitialized (this p') = isInitialized (this p).
Proof.
  destruct (truthy (authInfo (this p))) eqn:Ht.
  2:{ rewrite ensure_no_record by done. exists false, p. repeat split; lia. }
  destruct (expiring (authInfo (this p)) (clock (world p) (ticks (world p)))) eqn:He.
  - rewrite ensure_expiring by done.
    destruct (refresh_returns
                {| this := this p;
                   world := record (EvLog AttemptingRefresh) (tick (world p)) |})
      as (b & p' & Heq & ? & ? & ? & ? & ? & ?).
    exists b, p'. split; [done|].
    unfold network_calls, writes, devicecode_calls in *. cbn in *. done.
  - rewrite ensure_fresh by done. do 2 eexists. split; [reflexivity|].
    unfold network_calls, writes, devicecode_calls. cbn. repeat split; lia.
Qed.

(** X2.  [getAccessToken] has two outcomes only: it returns the
    [accessToken] of the record it leaves in memory, and that token is
    truthy, or it throws "Unable to obtain valid access token".  It sends
    at most one request. *)
Theorem getAccessToken_outcomes (p : Proc) :
  ∃ p', (getAccessToken p
         = (Val (get_prop (authInfo (this p')) "accessToken"), p')
         ∧ truthy (get_prop (authInfo (this p')) "accessToken") = true
         ∨ getAccessToken p = (Exc (Error UnableToObtainToken), p'))
    ∧ (network_calls (world p') ≤ network_calls (world p) + 1)%nat
    ∧ (writes (world p') ≤ writes (world p) + 1)%nat.
Proof.
  destruct (ensure_returns p) as (b & p' & He & ? & ? & ? & ? & ? & ?).
  exists p'. rewrite (getAccessToken_after p b p' He).
  split; [|done].
  destruct b; cbn; [|by right].
  destruct (truthy (get_prop (authInfo (this p')) "accessToken")); cbn; auto.
Qed.

Lemma initialize_returns (p : Proc) :
  ∃ p', initializeClient p = (Val tt, p')
    ∧ (network_calls (world p') ≤ network_calls (world p) + 1)%nat
    ∧ (writes (world p') ≤ writes (world p) + 1)%nat
    ∧ devicecode_calls (world p') = devicecode_calls (world p)
    ∧ (isInitialized (this p) = false →
       (client (this p') = Some GraphClient ∧ isInitialized (this p') = true)
       ∨ (client (this p') = client (this p) ∧ isInitialized (this p') = false))
    ∧ (isInitialized (this p) = true → p' = p).
Proof.
  destruct (isInitialized (this p)) eqn:Hi.
  { rewrite initialize_once by done. exists p. repeat split; (lia || done). }
  destruct (file (world p)) as [[|doc]|] eqn:Hf.
  - rewrite initialize_malformed by done. eexists. split; [reflexivity|].
    unfold network_calls, writes, devicecode_calls. cbn.
    repeat split; try lia; try done; try (intros _; right; split; congruence).
  - rewrite (initialize_document p doc) by done.
    destruct (truthy (get_prop doc "authenticated")) eqn:Ha; cbn [andb].
    2:{ eexists. split; [reflexivity|].
        unfold network_calls, writes, devicecode_calls. cbn.
        repeat split; try lia; try done; try (intros _; right; split; congruence). }
    destruct (truthy (get_prop doc "accessToken")) eqn:Hat; cbn [andb].
    2:{ eexists. split; [reflexivity|].
        unfold network_calls, writes, devicecode_calls. cbn.
        repeat split; try lia; try done; try (intros _; right; split; congruence). }
    destruct (ensure_returns (loaded doc p))
      as (b & p' & He & ? & ? & ? & ? & Hc & Hi').
    rewrite He. destruct b.
    + exists (ready p'). split; [done|]. clear He. unfold loaded in *. cbn in *.
      repeat split; try assumption; [auto|intros [=]].
    + eexists. split; [reflexivity|].
      unfold loaded, network_calls, writes, devicecode_calls in *. cbn in *.
      repeat split; try lia; try done; try (intros _; right; split; congruence).
  - rewrite initialize_no_file by done. eexists. split; [reflexivity|].
    unfold network_calls, writes, devicecode_calls. cbn.
    repeat split; try lia; try done; try (intros _; right; split; congruence).
Qed.

(** X3.  [getClient] has two outcomes only: it returns the client and the
    service is then authenticated, or it throws "Not authenticated" and the
    service is not.  This holds from every state in which [client] is set
    exactly when [isInitialized] is, as in the new service.  It sends at
    most one request and writes at most once. *)
Theorem getClient_outcomes (p : Proc) :
  (isInitialized (this p) = true ↔ client (this p) = Some GraphClient) →
  ∃ p', (getClient p = (Val GraphClient, p') ∧ isAuthenticated (this p') = true
         ∨ getClient p = (Exc (Error NotAuthenticatedRunCli), p')
           ∧ isAuthenticated (this p') = false)
    ∧ (isInitialized (this p') = true ↔ client (this p') = Some GraphClient)
    ∧ (network_calls (world p') ≤ network_calls (world p) + 1)%nat
    ∧ (writes (world p') ≤ writes (world p) + 1)%nat.
Proof.
  intros Hinv.
  destruct (initialize_returns p) as (p' & Hi & ? & ? & ? & Hnew & Hold).
  exists p'. rewrite (getClient_after p p' Hi). unfold isAuthenticated.
  destruct (isInitialized (this p)) eqn:Hinit.
  - assert (p' = p) as -> by auto.
    rewrite (proj1 Hinv eq_refl).
    split; [by left|]. split; [done|]. split; lia.
  - destruct (Hnew eq_refl) as [[Hc Hi'] | [Hc Hi']]; rewrite Hc, Hi'.
    + split; [by left|]. done.
    + destruct (client (this p)) as [[]|] eqn:Hcl.
      * destruct Hinv as [_ Hinv]. by specialize (Hinv eq_refl).
      * split; [by right|]. done.
Qed.

End Safety.

(** ** The expiry test and what follows a refresh *)

Section Expiry.
Context `{DateRuntime}.

(** X4.  A token within five minutes of its expiry, the boundary included,
    is never handed out as it is: when [getAccessToken] returns a token
    then, the token endpoint has answered a refresh with a token response
    and the token returned is the new [access_token]. *)
Theorem expiring_token_is_never_handed_out (p p' : Proc) (v : jsval) (e : Z) :
  new_Date (get_prop (authInfo (this p)) "expiresAt") = Some e →
  Z.abs (clock (world p) (ticks (world p)) + 5 * 60 * 1000) ≤ 8640000000000000 →
  e ≤ clock (world p) (ticks (world p)) + 5 * 60 * 1000 →
  getAccessToken p = (Val v, p') →
  ∃ r, token_endpoint (world p) (token_calls (world p)) = Some (Success (Some r))
    ∧ v = VStr (access_token r)
    ∧ network_calls (world p') = S (network_calls (world p)).
Proof.
  intros He Hclip Hle Hget.
  destruct (truthy (authInfo (this p))) eqn:Ht.
  2:{ rewrite (getAccessToken_after p false p) in Hget
        by (by apply ensure_no_record). discriminate Hget. }
  pose proof (expiring_before _ _ _ He Hclip Hle) as Hexp.
  set (p1 := {| this := this p;
                world := record (EvLog AttemptingRefresh) (tick (world p)) |}).
  destruct (refresh_returns p1) as (b & p2 & Hr & _).
  rewrite (getAccessToken_after p b p2) in Hget
    by (by rewrite ensure_expiring).
  destruct b; [|discriminate Hget].
  apply refresh_true_inv in Hr as (r & Hn & _ & ->).
  exists r. split; [exact Hn|].
  cbn [negb orb] in Hget. unfold after_refresh in Hget.
  cbn [this authInfo] in Hget. rewrite updated_accessToken in Hget.
  destruct (truthy (VStr (access_token r))); cbn in Hget; [|discriminate Hget].
  injection Hget as <- <-. done.
Qed.

Lemma calls_fresh (n : nat) (p : Proc) :
  truthy (get_prop (authInfo (this p)) "accessToken") = true →
  (∀ k, (ticks (world p) ≤ k)%nat →
     expiring (authInfo (this p)) (clock (world p) k) = false) →
  ∃ p', calls n p
        = (replicate n (Val (get_prop (authInfo (this p)) "accessToken")), p')
    ∧ this p' = this p
    ∧ trace (world p') = trace (world p)
    ∧ file (world p') = file (world p)
    ∧ clock (world p') = clock (world p)
    ∧ (ticks (world p) ≤ ticks (world p'))%nat.
Proof.
  revert p. induction n as [|n IH]; intros p Hat He.
  - by exists p.
  - cbn [calls].
    rewrite (getAccessToken_after p true {| this := this p; world := tick (world p) |}).
    2:{ apply ensure_fresh; [by eapply truthy_prop_truthy|by apply He]. }
    cbn [this negb orb]. rewrite Hat. cbn [negb].
    destruct (IH {| this := this p; world := tick (world p) |})
      as (p' & Hc & Hthis & Htr & Hf & Hcl & Hti).
    + done.
    + intros k Hk. apply He. cbn in Hk. lia.
    + cbn in Hc. rewrite Hc. exists p'. cbn in *.
      repeat split; try done. lia.
Qed.

(** X5.  A record whose [expiresAt] is not a date (missing, or a text
    [Date] cannot read) is never refreshed: every call of [getAccessToken],
    at whatever clock reading, returns the [accessToken] of the record and
    adds nothing to the trace of effects. *)
Theorem invalid_expiry_never_refreshes (n : nat) (p : Proc) :
  new_Date (get_prop (authInfo (this p)) "expiresAt") = None →
  truthy (get_prop (authInfo (this p)) "accessToken") = true →
  ∃ p', calls n p
        = (replicate n (Val (get_prop (authInfo (this p)) "accessToken")), p')
    ∧ this p' = this p
    ∧ trace (world p') = trace (world p).
Proof.
  intros Hd Hat.
  destruct (calls_fresh n p Hat) as (p' & ? & ? & ? & _).
  - intros k _. unfold expiring. by rewrite Hd.
  - by exists p'.
Qed.



(** X8.  A refresh that succeeds changes four fields only: every other
    property of the record, [clientId], [authenticated] and any the service
    does not know, reads the same afterwards, in memory and in the file. *)
Theorem refresh_keeps_other_fields (p p' : Proc) (k : string) :
  refreshAccessToken p = (Val true, p') →
  k ≠ "accessToken" → k ≠ "refreshToken" → k ≠ "expiresAt" → k ≠ "timestamp" →
  get_prop (authInfo (this p')) k = get_prop (authInfo (this p)) k
  ∧ ∃ doc, file (world p') = Some (Json doc)
           ∧ get_prop doc k = get_prop (authInfo (this p)) k.
Proof.
  intros (r & _ & _ & ->)%refresh_true_inv ? ? ? ?.
  unfold after_refresh. cbn [this world authInfo file set_file record].
  split; [by apply updated_other|].
  eexists. split; [reflexivity|].
  rewrite get_prop_reparse. by apply updated_other.
Qed.

End Expiry.

(** ** Any interleaving of callers *)

Section Interleavings.
Context `{DateRuntime}.

Ltac segment_cases :=
  unfold resume, segment, refresh_called, caught;
  repeat (path; try (case_match; simplify_eq/=)); path.

Lemma resume_effects (t : Task) (p : Proc) :
  is_called (fst (resume t p)) = false
  ∧ (rank t < 5 → rank t < rank (fst (resume t p)))%nat
  ∧ (rank t = 5%nat → resume t p = (t, p))
  ∧ (network_calls (world p) ≤ network_calls (world (snd (resume t p))))%nat
  ∧ (network_calls (world (snd (resume t p)))
     ≤ network_calls (world p) + (if is_called t then 1 else 0))%nat
  ∧ (writes (world p) ≤ writes (world (snd (resume t p))))%nat
  ∧ (writes (world (snd (resume t p)))
     ≤ writes (world p)
       + (if before_write t && negb (before_write (fst (resume t p)))
          then 1 else 0))%nat
  ∧ (before_write t = false → before_write (fst (resume t p)) = false).
Proof.
  unfold network_calls.
  destruct t; segment_cases; cbn; repeat split; try lia; try done.
Qed.

Lemma filter_insert_length {A} (f : A → bool) (l : list A) (i : nat) (x y : A) :
  l !! i = Some x →
  (length (List.filter f (<[i:=y]> l)) + (if f x then 1 else 0)
   = length (List.filter f l) + (if f y then 1 else 0))%nat.
Proof.
  revert i. induction l as [|a l IH]; intros [|i] Hl; try done.
  - cbn in Hl. injection Hl as ->. cbn. destruct (f x), (f y); cbn; lia.
  - cbn in Hl. specialize (IH i Hl).
    change (<[S i:=y]> (a :: l)) with (a :: <[i:=y]> l).
    cbn [List.filter]. destruct (f a); cbn [length]; lia.
Qed.

Lemma turn_effects (i : nat) (l : Loop) :
  (network_calls (world (proc (turn i l))) + not_started (tasks (turn i l))
   ≤ network_calls (world (proc l)) + not_started (tasks l))%nat
  ∧ (writes (world (proc (turn i l))) + not_written (tasks (turn i l))
     ≤ writes (world (proc l)) + not_written (tasks l))%nat.
Proof.
  unfold turn. destruct (tasks l !! i) as [t|] eqn:Hi; [|done].
  pose proof (resume_effects t (proc l))
    as (Hc & _ & _ & _ & Hn & _ & Hw & Hb).
  destruct (resume t (proc l)) as [t' p'] eqn:Hr. cbn [tasks proc fst snd] in *.
  pose proof (filter_insert_length is_called (tasks l) i t t' Hi) as Hs.
  pose proof (filter_insert_length before_write (tasks l) i t t' Hi) as Hv.
  unfold not_started, not_written. rewrite Hc in Hs.
  split.
  - destruct (is_called t); lia.
  - destruct (before_write t) eqn:Hbt.
    + destruct (before_write t'); cbn in *; lia.
    + rewrite (Hb eq_refl) in *. cbn in *. lia.
Qed.

Lemma run_effects (schedule : list nat) (l : Loop) :
  (network_calls (world (proc (run schedule l))) + not_started (tasks (run schedule l))
   ≤ network_calls (world (proc l)) + not_started (tasks l))%nat
  ∧ (writes (world (proc (run schedule l))) + not_written (tasks (run schedule l))
     ≤ writes (world (proc l)) + not_written (tasks l))%nat.
Proof.
  revert l. induction schedule as [|i schedule IH]; intros l; [done|].
  cbn [run]. destruct (IH (turn i l)) as [? ?].
  destruct (turn_effects i l) as [? ?]. split; lia.
Qed.

(** X9.  However [n] callers of [getAccessToken] are interleaved, and
    whatever the server answers, they send at most [n] requests and write
    the file at most [n] times between them: a caller never refreshes
    twice. *)
Theorem callers_refresh_at_most_once_each (schedule : list nat) (n : nat) (p : Proc) :
  (network_calls (world (proc (run schedule (batch n p))))
   ≤ network_calls (world p) + n)%nat
  ∧ (writes (world (proc (run schedule (batch n p)))) ≤ writes (world p) + n)%nat.
Proof.
  destruct (run_effects schedule (batch n p)) as [Hn Hw].
  assert (not_started (tasks (batch n p)) = n) as Hs.
  { unfold not_started, batch. cbn [tasks]. clear.
    induction n as [|n IH]; cbn in *; lia. }
  assert (not_written (tasks (batch n p)) = n) as Hv.
  { unfold not_written, batch. cbn [tasks]. clear.
    induction n as [|n IH]; cbn in *; lia. }
  rewrite Hs in Hn. rewrite Hv in Hw. cbn [batch proc] in *. split; lia.
Qed.

Lemma turn_progress (i j : nat) (l : Loop) (t : Task) :
  tasks l !! i = Some t →
  ∃ t', tasks (turn j l) !! i = Some t'
    ∧ (Nat.min 5 (rank t + (if Nat.eqb i j then 1 else 0)) ≤ rank t')%nat.
Proof.
  intros Hi. unfold turn.
  destruct (Nat.eqb_spec i j) as [<-|Hne].
  - rewrite Hi.
    pose proof (resume_effects t (proc l)) as (_ & Hlt & Hfix & _).
    destruct (resume t (proc l)) as [t' p'] eqn:Hr. cbn [tasks fst] in *.
    exists t'. split.
    + apply list_lookup_insert_eq. by eapply lookup_lt_Some.
    + destruct (decide (rank t < 5)%nat) as [Hr5|Hr5].
      * specialize (Hlt Hr5). lia.
      * assert (rank t = 5%nat) as H5 by (destruct t; cbn in *; lia).
        specialize (Hfix H5). injection Hfix as -> _. lia.
  - destruct (tasks l !! j) as [tj|] eqn:Hj.
    + destruct (resume tj (proc l)) as [t' p']. cbn [tasks].
      exists t. rewrite list_lookup_insert_ne by done. split; [done|lia].
    + exists t. split; [done|lia].
Qed.

Lemma run_progress (schedule : list nat) (i : nat) (l : Loop) (t : Task) :
  tasks l !! i = Some t →
  ∃ t', tasks (run schedule l) !! i = Some t'
    ∧ (Nat.min 5 (rank t + turns i schedule) ≤ rank t')%nat.
Proof.
  revert l t. induction schedule as [|j schedule IH]; intros l t Hi.
  - exists t. split; [done|]. cbn [turns]. lia.
  - cbn [run turns].
    destruct (turn_progress i j l t Hi) as (t1 & H1 & Hr1).
    destruct (IH (turn j l) t1 H1) as (t' & Ht' & Hr').
    exists t'. split; [done|]. lia.
Qed.

(** X10.  In a batch of [n] callers, a caller that has had five turns has
    settled, with a token or with an error, whatever the turns of the other
    callers in between and whatever the server answers. *)
Theorem caller_settles_in_five_turns (schedule : list nat) (n i : nat) (p : Proc) :
  (i < n)%nat →
  (5 ≤ turns i schedule)%nat →
  ∃ r, tasks (run schedule (batch n p)) !! i = Some (Settled r).
Proof.
  intros Hi H5.
  destruct (run_progress schedule i (batch n p) Called) as (t' & Ht' & Hr).
  - unfold batch. cbn. by apply lookup_replicate_2.
  - destruct t' as [| | | | |res]; cbn [rank] in Hr; try lia. by exists res.
Qed.

End Interleavings.

(** ** Polling for the token, in general *)

Section Polling_general.

Lemma slow_downs_polled (deviceCode : string) (interval : Z) (w : World) (k : nat) :
  ∀ from, slow_downs (polled deviceCode interval w) from k = slow_downs w from k.
Proof. induction k as [|k IH]; intros from; cbn; [done|]. by rewrite IH. Qed.

Lemma waited_frame (deviceCode : string) (k : nat) :
  ∀ interval w,
    token_endpoint (snd (waited deviceCode k interval w)) = token_endpoint w
    ∧ devicecode_endpoint (snd (waited deviceCode k interval w)) = devicecode_endpoint w
    ∧ token_calls (snd (waited deviceCode k interval w)) = (token_calls w + k)%nat
    ∧ network_calls (snd (waited deviceCode k interval w)) = (network_calls w + k)%nat
    ∧ fst (waited deviceCode k interval w)
      = interval + 5 * Z.of_nat (slow_downs w (token_calls w) k).
Proof.
  induction k as [|k IH]; intros interval w.
  - cbn. repeat split; lia.
  - cbn [waited slow_downs].
    destruct (IH (if slow_down (token_endpoint w (token_calls w))
                  then interval + 5 else interval)
                (polled deviceCode interval w)) as (He & Hd & Hc & Hn & Hi).
    rewrite He, Hd, Hc, Hn, Hi, slow_downs_polled.
    unfold polled, token_calls, network_calls. cbn.
    repeat split; try lia.
    destruct (slow_down _); lia.
Qed.

Lemma poll_loop_waited (deviceCode : string) (k : nat) :
  ∀ attempts interval w,
    (attempts + k ≤ maxAttempts)%nat →
    (∀ j, (j < k)%nat →
       keeps_waiting (token_endpoint w (token_calls w + j)) = true) →
    poll_loop deviceCode attempts interval w
    = poll_loop deviceCode (attempts + k)
        (fst (waited deviceCode k interval w))
        (snd (waited deviceCode k interval w)).
Proof.
  induction k as [|k IH]; intros attempts interval w Ha Hw.
  - cbn. by rewrite Nat.add_0_r.
  - rewrite poll_loop_step. destruct (decide _); [|lia].
    rewrite poll_answer_waiting.
    2:{ specialize (Hw 0%nat). rewrite Nat.add_0_r in Hw. apply Hw. lia. }
    rewrite IH.
    + cbn [waited]. by rewrite Nat.add_succ_r.
    + lia.
    + intros j Hj. cbn. specialize (Hw (S j)).
      rewrite Nat.add_succ_r in Hw. apply Hw. lia.
Qed.

(** The world after the request that ends the polling: [k] answers to
    keep waiting, then one pass more. *)
Lemma poll_loop_ends (deviceCode : string) (k : nat) (interval : Z) (w : World) :
  (k < maxAttempts)%nat →
  (∀ j, (j < k)%nat →
     keeps_waiting (token_endpoint w (token_calls w + j)) = true) →
  keeps_waiting (token_endpoint w (token_calls w + k)) = false →
  pollForToken deviceCode interval w
  = (match poll_answer (fst (waited deviceCode k interval w))
             (token_endpoint w (token_calls w + k)) with
     | Val (Return result) => Val result
     | Val (Continue _) => Exc (Error AuthenticationTimedOut)
     | Exc e => Exc e
     end,
     polled deviceCode (fst (waited deviceCode k interval w))
       (snd (waited deviceCode k interval w))).
Proof.
  intros Hk Hw Hend. unfold pollForToken.
  rewrite (poll_loop_waited deviceCode k) by (lia || done).
  rewrite poll_loop_step. destruct (decide _); [|cbn in *; lia].
  destruct (waited_frame deviceCode k interval w) as (He & _ & Hc & _).
  rewrite He, Hc.
  destruct (token_endpoint w (token_calls w + k)) as [[[r|]|status raw [body|]]|];
    try done.
  cbn in Hend |- *.
  destruct (String.eqb (error body) "authorization_pending"); [done|].
  destruct (String.eqb (error body) "slow_down"); [done|].
  by repeat case_match.
Qed.

(** X11.  [pollForToken] returns the first token it is given: after [k]
    answers of [authorization_pending] or [slow_down] and then a token
    response, it returns that token, having sent [k + 1] requests, and the
    wait before the last one is the first interval plus five seconds for
    each [slow_down] among the [k]. *)
Theorem pollForToken_returns_first_token
    (deviceCode : string) (k : nat) (interval : Z) (w : World) (tok : TokenResponse) :
  (k < maxAttempts)%nat →
  (∀ j, (j < k)%nat →
     keeps_waiting (token_endpoint w (token_calls w + j)) = true) →
  token_endpoint w (token_calls w + k) = Some (Success (Some tok)) →
  ∃ w' tr,
    pollForToken deviceCode interval w = (Val tok, w')
    ∧ network_calls w' = (network_calls w + S k)%nat
    ∧ trace w'
      = EvFetch (DeviceTokenRequest deviceCode)
        :: EvSleep ((interval + 5 * Z.of_nat (slow_downs w (token_calls w) k)) * 1000)
        :: tr.
Proof.
  intros Hk Hw Hok.
  rewrite (poll_loop_ends deviceCode k) by (done || by rewrite Hok).
  rewrite Hok. cbn [poll_answer].
  destruct (waited_frame deviceCode k interval w) as (_ & _ & _ & Hn & Hi).
  do 2 eexists. split; [reflexivity|]. split.
  - unfold polled, network_calls in *. cbn. lia.
  - unfold polled. cbn. by rewrite Hi.
Qed.

(** X12.  An error that is not [authorization_pending] or [slow_down] ends
    the polling at once: after [k] answers to keep waiting,
    [authorization_declined] throws "User declined", [expired_token] throws
    "Device code expired", any other code throws "Authentication failed"
    with the code and its description, and no request follows: [k + 1]
    requests in all. *)
Theorem pollForToken_stops_at_terminal_error
    (deviceCode : string) (k : nat) (interval : Z) (w : World)
    (status : Z) (raw : string) (body : OAuthError) :
  (k < maxAttempts)%nat →
  (∀ j, (j < k)%nat →
     keeps_waiting (token_endpoint w (token_calls w + j)) = true) →
  token_endpoint w (token_calls w + k) = Some (Failure status raw (Some body)) →
  error body ≠ "authorization_pending" →
  error body ≠ "slow_down" →
  ∃ w',
    pollForToken deviceCode interval w
    = (Exc (Error
              (if String.eqb (error body) "authorization_declined" then UserDeclined
               else if String.eqb (error body) "expired_token" then DeviceCodeExpired
               else AuthenticationFailed (error body) (error_description body))),
       w')
    ∧ network_calls w' = (network_calls w + S k)%nat.
Proof.
  intros Hk Hw Hrep Hp Hs.
  apply String.eqb_neq in Hp. apply String.eqb_neq in Hs.
  rewrite (poll_loop_ends deviceCode k); [|done|done|].
  2:{ rewrite Hrep. cbn. by rewrite Hp, Hs. }
  rewrite Hrep. cbn [poll_answer]. rewrite Hp, Hs.
  destruct (waited_frame deviceCode k interval w) as (_ & _ & _ & Hn & _).
  eexists. split.
  - destruct (String.eqb (error body) "authorization_declined"); [reflexivity|].
    destruct (String.eqb (error body) "expired_token"); reflexivity.
  - unfold polled, network_calls in *. cbn. lia.
Qed.

(** What polling leaves alone: the file, the clock, the disk and the
    device code endpoint. *)
Lemma poll_loop_frame (k : nat) :
  ∀ deviceCode attempts interval w,
    (maxAttempts - attempts = k)%nat →
    file (snd (poll_loop deviceCode attempts interval w)) = file w
    ∧ writes (snd (poll_loop deviceCode attempts interval w)) = writes w
    ∧ disk (snd (poll_loop deviceCode attempts interval w)) = disk w
    ∧ clock (snd (poll_loop deviceCode attempts interval w)) = clock w
    ∧ ticks (snd (poll_loop deviceCode attempts interval w)) = ticks w
    ∧ devicecode_calls (snd (poll_loop deviceCode attempts interval w))
      = devicecode_calls w.
Proof.
  induction k as [|k IH]; intros deviceCode attempts interval w Hk;
    rewrite poll_loop_step.
  - destruct (decide _); [lia|]. done.
  - destruct (decide _); [|lia].
    destruct (poll_answer _ _) as [[r|i']|e]; cbn [snd]; try done.
    destruct (IH deviceCode (S attempts) i' (polled deviceCode interval w))
      as (? & ? & ? & ? & ? & ?); [lia|]. done.
Qed.

End Polling_general.

(** ** [authenticate], [checkAuth], [logout] *)

Section Commands.
Context `{DateRuntime}.

Lemma getDeviceCode_effects (w : World) :
  ∃ r, getDeviceCode w = (r, record (EvFetch DeviceCodeRequest) w).
Proof.
  unfold getDeviceCode. unfold_js.
  destruct (devicecode_endpoint w (devicecode_calls w)) as [[[d|]|status raw body]|];
    cbn; eauto.
Qed.

Lemma pollForToken_effects (deviceCode : string) (interval : Z) (w : World) :
  file (snd (pollForToken deviceCode interval w)) = file w
  ∧ writes (snd (pollForToken deviceCode interval w)) = writes w
  ∧ disk (snd (pollForToken deviceCode interval w)) = disk w
  ∧ devicecode_calls (snd (pollForToken deviceCode interval w)) = devicecode_calls w
  ∧ (network_calls (snd (pollForToken deviceCode interval w))
     ≤ network_calls w + maxAttempts)%nat.
Proof.
  destruct (poll_loop_frame maxAttempts deviceCode 0 interval w)
    as (? & ? & ? & ? & ? & ?); [lia|].
  pose proof (poll_loop_calls maxAttempts deviceCode 0%nat interval w).
  unfold pollForToken. repeat split; try done. apply H6. lia.
Qed.

Lemma authenticate_cases (w : World) :
  ((fst (authenticate w) = Val tt
    ∧ ∃ d w2 tok,
        getDeviceCode w = (Val d, record (EvFetch DeviceCodeRequest) w)
        ∧ pollForToken (device_code d) (interval d)
            (record (EvLog (PleaseCompleteAuthentication
                              (verification_uri d) (user_code d)))
               (record (EvFetch DeviceCodeRequest) w))
          = (Val tok, w2)
        ∧ disk w2 (writes w2) = Written
        ∧ file (snd (authenticate w))
          = Some (Json (stored (Date_toISOString (clock w2 (S (ticks w2))))
                          (Date_toISOString
                             (clock w2 (ticks w2) + expires_in tok * 1000))
                          tok)))
   ∨ (fst (authenticate w) = Exc (ProcessExit 1)
      ∧ (writes (snd (authenticate w)) = writes w
         → file (snd (authenticate w)) = file w)))
  ∧ (writes (snd (authenticate w)) ≤ writes w + 1)%nat
  ∧ devicecode_calls (snd (authenticate w)) = S (devicecode_calls w)
  ∧ (network_calls (snd (authenticate w)) ≤ network_calls w + 1 + maxAttempts)%nat.
Proof.
  unfold authenticate, try_catch, bind.
  destruct (getDeviceCode_effects w) as [r Hg]. rewrite Hg.
  destruct r as [d|e].
  2:{ unfold_js. cbn. split; [right; split; [reflexivity|done]|].
      unfold writes, devicecode_calls, network_calls. cbn. repeat split; lia. }
  unfold console, modify.
  set (w1 := record (EvLog (PleaseCompleteAuthentication (verification_uri d) (user_code d)))
               (record (EvFetch DeviceCodeRequest) w)).
  destruct (pollForToken_effects (device_code d) (interval d) w1)
    as (Hf & Hw & Hd & Hc & Hn).
  destruct (pollForToken (device_code d) (interval d) w1) as [[tok|e] w2] eqn:Hp.
  2:{ cbn in *. split; [right; split; [reflexivity|done]|].
      unfold writes, devicecode_calls, network_calls in *. cbn in *.
      repeat split; lia. }
  cbn [fst snd] in *.
  destruct (TimeClip (clock w2 (ticks w2) + expires_in tok * 1000)) as [t|] eqn:Hclip.
  2:{ path. split; [right; split; [reflexivity|done]|].
      unfold devicecode_calls, network_calls in *. cbn in *.
      repeat split; lia. }
  assert (t = clock w2 (ticks w2) + expires_in tok * 1000) as Ht.
  { unfold TimeClip in Hclip.
    destruct (Z.abs (clock w2 (ticks w2) + expires_in tok * 1000) <=? 8640000000000000);
      congruence. }
  subst t.
  destruct (disk w2 (count is_write (trace w2))) eqn:Hdisk.
  - path. split.
    + left. split; [reflexivity|].
      exists d, w2, tok. split; [reflexivity|]. split; [exact Hp|].
      split; [exact Hdisk|]. reflexivity.
    + unfold devicecode_calls, network_calls in *. cbn in *. repeat split; lia.
  - path. split.
    + right. split; [reflexivity|]. lia.
    + unfold devicecode_calls, network_calls in *. cbn in *. repeat split; lia.
Qed.

(** X13.  [authenticate] ends in one of two ways.  It returns: then
    [getDeviceCode] gave a device code, [pollForToken], called with its
    [device_code] and [interval], returned a token response, and the file
    holds the record of that response: its two tokens, the expiry
    [expires_in] seconds after the first clock reading that follows the
    polling, and the second reading as timestamp.  Or it exits with code 1,
    and then, unless a write was begun and failed, the file is the one from
    before.  It asks for one device code, writes at most once, and sends at
    most [maxAttempts] requests for the token. *)
Theorem authenticate_outcomes (w : World) :
  ∃ w',
    ((authenticate w = (Val tt, w')
      ∧ ∃ d w2 tok,
          getDeviceCode w = (Val d, record (EvFetch DeviceCodeRequest) w)
          ∧ pollForToken (device_code d) (interval d)
              (record (EvLog (PleaseCompleteAuthentication
                                (verification_uri d) (user_code d)))
                 (record (EvFetch DeviceCodeRequest) w))
            = (Val tok, w2)
          ∧ disk w2 (writes w2) = Written
          ∧ file w'
            = Some (Json (stored (Date_toISOString (clock w2 (S (ticks w2))))
                            (Date_toISOString
                               (clock w2 (ticks w2) + expires_in tok * 1000))
                            tok)))
     ∨ (authenticate w = (Exc (ProcessExit 1), w')
        ∧ (writes w' = writes w → file w' = file w)))
    ∧ (writes w' ≤ writes w + 1)%nat
    ∧ devicecode_calls w' = S (devicecode_calls w)
    ∧ (network_calls w' ≤ network_calls w + 1 + maxAttempts)%nat.
Proof.
  pose proof (authenticate_cases w) as Hc.
  destruct (authenticate w) as [r w']. cbn [fst snd] in Hc.
  exists w'. destruct Hc as ([[-> ?]|[-> ?]] & ? & ? & ?); split; auto.
Qed.

Lemma stored_fields (timestamp expiresAt : string) (tok : TokenResponse) :
  get_prop (stored timestamp expiresAt tok) "authenticated" = VBool true
  ∧ get_prop (stored timestamp expiresAt tok) "clientId" = VStr CLIENT_ID
  ∧ get_prop (stored timestamp expiresAt tok) "expiresAt" = VStr expiresAt
  ∧ get_prop (stored timestamp expiresAt tok) "accessToken" = VStr (access_token tok)
  ∧ get_prop (stored timestamp expiresAt tok) "refreshToken" = VStr (refresh_token tok)
  ∧ get_prop (stored timestamp expiresAt tok) "timestamp" = VStr timestamp.
Proof. unfold stored. cbn. repeat split; by simplify_map_eq. Qed.

Lemma checkAuth_cases (w : World) :
  ∃ (b : bool) (out : CheckOutput),
    checkAuth w = (Val (b, out), if b then tick w else w)
    ∧ (b = true ↔
       ∃ doc, file w = Some (Json doc)
              ∧ truthy (get_prop doc "authenticated") = true
              ∧ truthy (get_prop doc "clientId") = true
              ∧ ToPrimitive_throws (get_prop doc "timestamp") = false
              ∧ ToPrimitive_throws (get_prop doc "expiresAt") = false).
Proof.
  unfold checkAuth. unfold_js.
  destruct (file w) as [[|doc]|] eqn:Hf; cbn.
  - exists false, NoAuthenticationFound. split; [done|].
    split; [done|]. by intros (doc & [=] & _).
  - destruct (truthy (get_prop doc "authenticated")) eqn:Ha;
      destruct (truthy (get_prop doc "clientId")) eqn:Hc;
      destruct (ToPrimitive_throws (get_prop doc "timestamp")) eqn:Ht;
      destruct (ToPrimitive_throws (get_prop doc "expiresAt")) eqn:He;
      destruct doc; try (cbn in Ha; discriminate); cbn [andb];
      (first [ exists true; eexists; split; [reflexivity|]
             | exists false; eexists; split; [reflexivity|] ]; split;
       [ try discriminate; intros _; eexists; by rewrite Ha, Hc, Ht, He
       | try done; intros (doc' & [= <-] & ? & ? & ? & ?); congruence ]).
  - exists false, NoAuthenticationFound. split; [done|].
    split; [done|]. by intros (doc & [=] & _).
Qed.

(** X14.  [checkAuth] only reads: it never throws, sends nothing and leaves
    the file as it is.  It answers [true] exactly when the file holds a
    document whose [authenticated] and [clientId] are truthy and whose
    [timestamp] and [expiresAt] can be made into a primitive, that is, when
    the template literal of line 188 and the [new Date] of line 190 do not
    throw.  Nothing else takes part in the answer: not the tokens, not
    whether [expiresAt] is a date, not whether it is past. *)
Theorem checkAuth_only_reads (w : World) :
  ∃ b out w', checkAuth w = (Val (b, out), w')
    ∧ trace w' = trace w
    ∧ file w' = file w
    ∧ (b = true ↔
       ∃ doc, file w = Some (Json doc)
              ∧ truthy (get_prop doc "authenticated") = true
              ∧ truthy (get_prop doc "clientId") = true
              ∧ ToPrimitive_throws (get_prop doc "timestamp") = false
              ∧ ToPrimitive_throws (get_prop doc "expiresAt") = false).
Proof.
  destruct (checkAuth_cases w) as (b & out & Hc & Hb).
  exists b, out, (if b then tick w else w). by destruct b.
Qed.

Lemma getClient_stored (p : Proc) (timestamp : string) (e : Z) (tok : TokenResponse) :
  isInitialized (this p) = false →
  file (world p) = Some (Json (stored timestamp (Date_toISOString e) tok)) →
  Date_parse (Date_toISOString e) = Some e →
  clock (world p) (ticks (world p)) + 5 * 60 * 1000 < e →
  access_token tok ≠ "" →
  getClient p
  = (Val GraphClient,
     ready {| this := this (loaded (stored timestamp (Date_toISOString e) tok) p);
              world := tick (world p) |}).
Proof.
  intros Hi Hf Hround H1 Hne.
  destruct (stored_fields timestamp (Date_toISOString e) tok)
    as (Ha & Hc & He & Hat & _).
  assert (truthy (VStr (access_token tok)) = true) as Ht.
  { cbn. by destruct (String.eqb_spec (access_token tok) ""). }
  set (doc := stored timestamp (Date_toISOString e) tok) in *.
  rewrite (getClient_after p
             (ready {| this := this (loaded doc p); world := tick (world p) |}));
    [done|].
  rewrite (initialize_document p doc) by done.
  rewrite Ha, Hat, Ht. cbn [truthy andb].
  rewrite (ensure_fresh (loaded doc p)); [done|done|].
  eapply not_expiring_after; [|exact H1].
  cbn [loaded this authInfo]. rewrite He. exact Hround.
Qed.

(** X15.  The record [authenticate] writes is accepted as it is: [checkAuth]
    answers [true], and a server that starts while the token has more than
    five minutes left makes its client and hands out the [access_token]
    without a request to the authorization server. *)
Theorem stored_record_is_accepted
    (w : World) (timestamp : string) (e : Z) (tok : TokenResponse) :
  file w = Some (Json (stored timestamp (Date_toISOString e) tok)) →
  Date_parse (Date_toISOString e) = Some e →
  clock w (ticks w) + 5 * 60 * 1000 < e →
  clock w (S (ticks w)) + 5 * 60 * 1000 < e →
  access_token tok ≠ "" →
  (∃ out w', checkAuth w = (Val (true, out), w'))
  ∧ ∃ p' p'', getClient (fresh w) = (Val GraphClient, p')
      ∧ getAccessToken p' = (Val (VStr (access_token tok)), p'')
      ∧ trace (world p'') = trace w.
Proof.
  intros Hf Hround H1 H2 Hne.
  destruct (stored_fields timestamp (Date_toISOString e) tok)
    as (Ha & Hc & He & Hat & _ & Hts).
  assert (truthy (VStr (access_token tok)) = true) as Ht.
  { cbn. by destruct (String.eqb_spec (access_token tok) ""). }
  split.
  - destruct (checkAuth_cases w) as (b & out & Hch & Hb).
    assert (b = true) as ->.
    { apply Hb. eexists. split; [exact Hf|]. by rewrite Ha, Hc, He, Hts. }
    eauto.
  - set (doc := stored timestamp (Date_toISOString e) tok) in *.
    set (p' := ready {| this := this (loaded doc (fresh w)); world := tick w |}).
    assert (ensureValidToken p'
            = (Val true, {| this := this p'; world := tick (world p') |})) as He2.
    { apply ensure_fresh; [done|].
      eapply not_expiring_after; [|exact H2].
      cbn [p' ready loaded this authInfo]. rewrite He. exact Hround. }
    exists p', {| this := this p'; world := tick (world p') |}.
    split; [|split].
    + by apply getClient_stored.
    + rewrite (getAccessToken_after _ _ _ He2).
      cbn [p' ready loaded this authInfo negb orb]. by rewrite Hat, Ht.
    + done.
Qed.

Lemma logout_cases (w : World) :
  logout w = (match file w with
     | Some _ => (Val LoggedOut, set_file None w)
     | None => (Val NoAuthenticationToClear, w)
     end).
Proof. unfold logout, unlink. unfold_js. by destruct (file w). Qed.

(** X16.  [logout] never throws and, [unlink] failing only for want of
    the file, always leaves no file; a second [logout] finds nothing to
    clear.  After it, [checkAuth] answers [false] and a server that starts
    fails with "Not authenticated" without a request. *)
Theorem logout_leaves_nothing (w : World) :
  ∃ out w', logout w = (Val out, w')
    ∧ file w' = None
    ∧ trace w' = trace w
    ∧ logout w' = (Val NoAuthenticationToClear, w')
    ∧ checkAuth w' = (Val (false, NoAuthenticationFound), w')
    ∧ ∃ p, getClient (fresh w') = (Exc (Error NotAuthenticatedRunCli), p)
           ∧ network_calls (world p) = network_calls w.
Proof.
  assert (∃ out w', logout w = (Val out, w') ∧ file w' = None ∧ trace w' = trace w)
    as (out & w' & Hl & Hn & Ht).
  { rewrite logout_cases. destruct (file w) eqn:Hf; eauto. }
  exists out, w'. do 3 (split; [done|]).
  split; [by rewrite logout_cases, Hn|].
  split.
  { unfold checkAuth. unfold_js. by rewrite Hn. }
  eexists. split.
  - rewrite (getClient_after (fresh w') (logged (FailedToInitialize FsError) (fresh w'))).
    + done.
    + by apply initialize_no_file.
  - unfold network_calls. cbn. by rewrite Ht.
Qed.

Lemma refresh_file (f : option text) (p : Proc) :
  fst (refreshAccessToken (with_file f p)) = fst (refreshAccessToken p)
  ∧ this (snd (refreshAccessToken (with_file f p))) = this (snd (refreshAccessToken p))
  ∧ trace (world (snd (refreshAccessToken (with_file f p))))
    = trace (world (snd (refreshAccessToken p))).
Proof.
  unfold refreshAccessToken, with_file.
  destruct (truthy (get_prop (authInfo (this p)) "refreshToken")) eqn:Hr.
  2:{ path. done. }
  destruct (token_endpoint (world p) (count is_token_fetch (trace (world p))))
    as [[[r|]|status raw body]|] eqn:Hn.
  2,3,4: path; done.
  destruct (TimeClip (clock (world p) (ticks (world p)) + expires_in r * 1000))
    as [t|] eqn:Hc.
  2:{ path. done. }
  destruct (disk (world p) (count is_write (trace (world p)))) eqn:Hw; path; done.
Qed.

Lemma getAccessToken_file (f : option text) (p : Proc) :
  fst (getAccessToken (with_file f p)) = fst (getAccessToken p)
  ∧ this (snd (getAccessToken (with_file f p))) = this (snd (getAccessToken p))
  ∧ trace (world (snd (getAccessToken (with_file f p))))
    = trace (world (snd (getAccessToken p))).
Proof.
  assert (fst (ensureValidToken (with_file f p)) = fst (ensureValidToken p)
          ∧ this (snd (ensureValidToken (with_file f p))) = this (snd (ensureValidToken p))
          ∧ trace (world (snd (ensureValidToken (with_file f p))))
            = trace (world (snd (ensureValidToken p)))) as (He1 & He2 & He3).
  { destruct (truthy (authInfo (this p))) eqn:Ht.
    2:{ by rewrite (ensure_no_record (with_file f p)), (ensure_no_record p). }
    destruct (expiring (authInfo (this p)) (clock (world p) (ticks (world p)))) eqn:He.
    - rewrite (ensure_expiring (with_file f p)), (ensure_expiring p) by done.
      apply (refresh_file f
               {| this := this p;
                  world := record (EvLog AttemptingRefresh) (tick (world p)) |}).
    - by rewrite (ensure_fresh (with_file f p)), (ensure_fresh p). }
  destruct (ensure_returns p) as (b & p1 & Hp & _).
  destruct (ensure_returns (with_file f p)) as (b' & p1' & Hp' & _).
  rewrite Hp, Hp' in *. cbn [fst snd] in *. injection He1 as ->.
  rewrite (getAccessToken_after _ b p1 Hp), (getAccessToken_after _ b p1' Hp').
  cbn [fst snd]. by rewrite He2.
Qed.

(** X17.  [logout] does not reach a server that is already initialized:
    with the file gone, [getClient] still returns the client, and
    [getAccessToken] gives the same result and leaves the same record as it
    would have with the file in place. *)
Theorem logout_does_not_reach_running_server (p : Proc) :
  isInitialized (this p) = true →
  client (this p) = Some GraphClient →
  file (snd (logout (world p))) = None
  ∧ getClient {| this := this p; world := snd (logout (world p)) |}
    = (Val GraphClient, {| this := this p; world := snd (logout (world p)) |})
  ∧ fst (getAccessToken {| this := this p; world := snd (logout (world p)) |})
    = fst (getAccessToken p)
  ∧ this (snd (getAccessToken {| this := this p; world := snd (logout (world p)) |}))
    = this (snd (getAccessToken p)).
Proof.
  intros Hi Hc.
  assert (file (snd (logout (world p))) = None
          ∧ (snd (logout (world p)) = world p
             ∨ snd (logout (world p)) = set_file None (world p)))
    as (Hn & Hw).
  { rewrite logout_cases. destruct (file (world p)) eqn:Hf; cbn; eauto. }
  split; [done|]. split.
  - rewrite (getClient_after _ {| this := this p; world := snd (logout (world p)) |}).
    + cbn. by rewrite Hc.
    + by apply initialize_once.
  - destruct Hw as [-> | ->].
    + by destruct p.
    + destruct (getAccessToken_file None p) as (? & ? & _). done.
Qed.

(** X18.  A server that started before the login needs no restart: its
    first [getClient] fails with "Not authenticated" and leaves it
    uninitialized, and once the file holds the record of [authenticate] the
    next [getClient] reads it and returns the client, again without a
    request to the authorization server. *)
Theorem server_picks_up_later_login
    (w : World) (timestamp : string) (e : Z) (tok : TokenResponse) :
  file w = None →
  Date_parse (Date_toISOString e) = Some e →
  clock w (ticks w) + 5 * 60 * 1000 < e →
  access_token tok ≠ "" →
  ∃ p1 p2,
    getClient (fresh w) = (Exc (Error NotAuthenticatedRunCli), p1)
    ∧ getClient (with_file (Some (Json (stored timestamp (Date_toISOString e) tok))) p1)
      = (Val GraphClient, p2)
    ∧ get_prop (authInfo (this p2)) "accessToken" = VStr (access_token tok)
    ∧ network_calls (world p2) = network_calls w.
Proof.
  intros Hf Hround H1 Hne.
  exists (logged (FailedToInitialize FsError) (fresh w)). eexists.
  split; [|split; [|split]].
  - rewrite (getClient_after (fresh w) (logged (FailedToInitialize FsError) (fresh w))).
    + done.
    + by apply initialize_no_file.
  - by apply getClient_stored.
  - cbn [ready loaded this authInfo].
    by destruct (stored_fields timestamp (Date_toISOString e) tok)
      as (_ & _ & _ & -> & _).
  - done.
Qed.

End Commands.

Section Status_tool.
Context `{DateRuntime}.
Variable api_me : M Proc jsval.

Lemma retry_after_returns (error : Exn) (p : Proc) :
  ∃ s said p', retry_after api_me error p = (Val (s, said), p')
    ∧ (AuthStatus.isAuthenticated s = true →
       said = []
       ∧ ∃ p1 me, truthy (authInfo (this p)) = true
                  ∧ refreshAccessToken p = (Val true, p1)
                  ∧ api_me p1 = (Val me, p')
                  ∧ s = authenticated_as me (authInfo (this p')))
    ∧ (AuthStatus.isAuthenticated s = false →
       s = unauthenticated ∧ last said = Some (ErrorGettingUserInfo error)).
Proof.
  unfold retry_after. unfold bind at 1. unfold get_authInfo, gets.
  destruct (truthy (authInfo (this p))) eqn:Ht.
  2:{ unfold ret. do 3 eexists. split; [reflexivity|]. by split. }
  unfold bind at 1.
  destruct (refresh_returns p) as (b & p1 & Hr & _). rewrite Hr.
  destruct b.
  2:{ unfold ret. do 3 eexists. split; [reflexivity|]. by split. }
  unfold try_catch, bind at 1.
  destruct (api_me p1) as [[me|e] p2] eqn:Hme.
  - unfold_js. do 3 eexists. split; [reflexivity|]. split; [|done].
    intros _. split; [done|]. by exists p1, me.
  - unfold ret. do 3 eexists. split; [reflexivity|]. by split.
Qed.

Lemma getAuthStatus_cases (p : Proc) :
  ∃ s said p', getAuthStatus api_me p = (Val (s, said), p')
    ∧ (AuthStatus.isAuthenticated s = true →
       said = []
       ∧ ((∃ me, api_me (snd (initializeClient p)) = (Val me, p')
                 ∧ s = authenticated_as me (authInfo (this p')))
          ∨ (∃ e p1 p2 me,
               api_me (snd (initializeClient p)) = (Exc e, p1)
               ∧ truthy (authInfo (this p1)) = true
               ∧ refreshAccessToken p1 = (Val true, p2)
               ∧ api_me p2 = (Val me, p')
               ∧ s = authenticated_as me (authInfo (this p')))))
    ∧ (AuthStatus.isAuthenticated s = false →
       s = unauthenticated
       ∧ (client (this (snd (initializeClient p))) ≠ None →
          ∃ e p1, api_me (snd (initializeClient p)) = (Exc e, p1)
                  ∧ last said = Some (ErrorGettingUserInfo e)))
    ∧ (client (this (snd (initializeClient p))) = None →
       s = unauthenticated ∧ said = [] ∧ p' = snd (initializeClient p)).
Proof.
  unfold getAuthStatus. unfold bind at 1.
  destruct (initialize_returns p) as (p1 & -> & _).
  unfold bind at 1. unfold get_client, gets. cbn [snd].
  destruct (client (this p1)) as [c|] eqn:Hc.
  2:{ unfold ret. do 3 eexists. split; [reflexivity|]. by repeat split. }
  unfold try_catch at 1. unfold bind at 1.
  destruct (api_me p1) as [[me|e] p2] eqn:Hme.
  - unfold_js. do 3 eexists. split; [reflexivity|]. split; [|done].
    intros _. split; [done|]. left. by exists me.
  - destruct (retry_after_returns e p2) as (s & said & p' & -> & Ht & Hf).
    exists s, said, p'. split; [done|]. split; [|split; [|done]].
    + intros Hs. destruct (Ht Hs) as (-> & p3 & me & ? & ? & ? & ?).
      split; [done|]. right. by exists e, p2, p3, me.
    + intros Hs. destruct (Hf Hs) as [-> Hl]. split; [done|].
      intros _. by exists e, p2.
Qed.

(** X19.  [getAuthStatus] never throws, whatever the call to the Graph API
    does.  An answer [isAuthenticated: true] carries the profile of a call
    that succeeded, the first one or the one tried again after
    [refreshAccessToken] returned [true], and neither of the two
    [console.error] lines of [getAuthStatus] is printed with it.  Any other
    answer is the plain [isAuthenticated: false], and when there was a
    client the error of the first call is the last thing reported.  When
    initialization leaves no client, the Graph API is not called at all. *)
Theorem getAuthStatus_never_throws (p : Proc) :
  ∃ s said p', getAuthStatus api_me p = (Val (s, said), p')
    ∧ (AuthStatus.isAuthenticated s = true →
       said = []
       ∧ ((∃ me, api_me (snd (initializeClient p)) = (Val me, p')
                 ∧ s = authenticated_as me (authInfo (this p')))
          ∨ (∃ e p1 p2 me,
               api_me (snd (initializeClient p)) = (Exc e, p1)
               ∧ truthy (authInfo (this p1)) = true
               ∧ refreshAccessToken p1 = (Val true, p2)
               ∧ api_me p2 = (Val me, p')
               ∧ s = authenticated_as me (authInfo (this p')))))
    ∧ (AuthStatus.isAuthenticated s = false →
       s = unauthenticated
       ∧ (client (this (snd (initializeClient p))) ≠ None →
          ∃ e p1, api_me (snd (initializeClient p)) = (Exc e, p1)
                  ∧ last said = Some (ErrorGettingUserInfo e)))
    ∧ (client (this (snd (initializeClient p))) = None →
       s = unauthenticated ∧ said = [] ∧ p' = snd (initializeClient p)).
Proof. exact (getAuthStatus_cases p). Qed.

Lemma expiry_note_returns (v : jsval) (w : World) :
  ∃ note w', expiry_note v w = (Val note, w') ∧ trace w' = trace w ∧ file w' = file w.
Proof.
  unfold expiry_note. unfold_js.
  destruct (truthy v); [|by eauto].
  destruct (new_Date v) as [e|]; [|by eauto].
  destruct (0 <? e - clock w (ticks w)); by eauto.
Qed.

Lemma throws_is_truthy (v : jsval) :
  ToPrimitive_throws v = true → truthy v = true.
Proof. by destruct v. Qed.

Lemma throws_or_else (a : jsval) (d : string) :
  ToPrimitive_throws (or_else a (VStr d)) = ToPrimitive_throws a.
Proof.
  unfold or_else. destruct (truthy a) eqn:Ht; [done|].
  destruct (ToPrimitive_throws a) eqn:Hth; [|done].
  apply throws_is_truthy in Hth. congruence.
Qed.

Lemma status_text_cases (status : AuthStatus.t) (w : World) :
  ∃ c w', status_text status w = (Val c, w')
    ∧ trace w' = trace w ∧ file w' = file w
    ∧ (c = ThrewTypeError ↔
       AuthStatus.isAuthenticated status = true
       ∧ (ToPrimitive_throws (AuthStatus.displayName status) = true
          ∨ ToPrimitive_throws (AuthStatus.userPrincipalName status) = true
          ∨ ToPrimitive_throws (AuthStatus.expiresAt status) = true))
    ∧ (AuthStatus.isAuthenticated status = false →
       c = Returned NotAuthenticated ∧ w' = w).
Proof.
  unfold status_text. rewrite !throws_or_else.
  destruct (AuthStatus.isAuthenticated status) eqn:Hs.
  2:{ unfold ret. do 2 eexists. split; [reflexivity|]. do 2 (split; [done|]).
      split; [|done]. split; [done|]. by intros [? _]. }
  destruct (ToPrimitive_throws (AuthStatus.displayName status)) eqn:Hd.
  { unfold ret. do 2 eexists. split; [reflexivity|]. do 2 (split; [done|]).
    split; [|done]. split; [|done]. intros _. split; [done|]. by left. }
  destruct (ToPrimitive_throws (AuthStatus.userPrincipalName status)) eqn:Hu.
  { unfold ret. do 2 eexists. split; [reflexivity|]. do 2 (split; [done|]).
    split; [|done]. split; [|done]. intros _. split; [done|]. right. by left. }
  destruct (ToPrimitive_throws (AuthStatus.expiresAt status)) eqn:He.
  { rewrite (throws_is_truthy _ He).
    unfold ret. do 2 eexists. split; [reflexivity|]. do 2 (split; [done|]).
    split; [|done]. split; [|done]. intros _. split; [done|]. right. by right. }
  rewrite andb_false_r. cbn [orb]. unfold bind at 1.
  destruct (expiry_note_returns (AuthStatus.expiresAt status) w)
    as (note & w' & -> & Htr & Hfi).
  unfold ret. do 2 eexists. split; [reflexivity|]. do 2 (split; [done|]).
  split; [|done]. split; [done|]. intros (_ & [?|[?|?]]); done.
Qed.

(** X20.  The handler of the [auth_status] tool ends in one of two ways,
    whatever the call to the Graph API does: it returns its text, or a
    [TypeError] leaves it, and this exactly when [getAuthStatus] answered
    [isAuthenticated: true] with a [displayName], a [userPrincipalName] or
    an [expiresAt] that cannot be made into a primitive.  Either way the
    service is as [getAuthStatus] left it.  The handler reports "Not
    authenticated" whenever [getAuthStatus] answers so, as it does when
    initialization leaves no client. *)
Theorem auth_status_throws_only_TypeError (p : Proc) :
  ∃ s said q c p',
    getAuthStatus api_me p = (Val (s, said), q)
    ∧ auth_status api_me p = (Val c, p')
    ∧ this p' = this q
    ∧ trace (world p') = trace (world q)
    ∧ (c = ThrewTypeError ↔
       AuthStatus.isAuthenticated s = true
       ∧ (ToPrimitive_throws (AuthStatus.displayName s) = true
          ∨ ToPrimitive_throws (AuthStatus.userPrincipalName s) = true
          ∨ ToPrimitive_throws (AuthStatus.expiresAt s) = true))
    ∧ (AuthStatus.isAuthenticated s = false →
       c = Returned NotAuthenticated ∧ p' = q)
    ∧ (client (this (snd (initializeClient p))) = None →
       c = Returned NotAuthenticated ∧ p' = snd (initializeClient p)).
Proof.
  destruct (getAuthStatus_cases p) as (s & said & q & Hg & _ & _ & Hnone).
  destruct (status_text_cases s (world q)) as (c & w' & Hst & Htr & _ & Hiff & Hno).
  exists s, said, q, c, {| this := this q; world := w' |}.
  split; [exact Hg|]. split.
  { unfold auth_status. unfold bind at 1. rewrite Hg. unfold io. cbn [fst].
    by rewrite Hst. }
  split; [done|]. split; [done|]. split; [exact Hiff|]. split.
  - intros Hs. destruct (Hno Hs) as [-> ->]. split; [done|]. by destruct q.
  - intros Hc. destruct (Hnone Hc) as (-> & _ & Hq).
    destruct (Hno eq_refl) as [-> ->]. split; [done|]. rewrite <- Hq. by destruct q.
Qed.

(** X21.  The time the tool prints: for a valid expiry [e] later than the
    clock reading, [hours] and [minutes] are the whole hours and the whole
    minutes of the hour of the time left, [0 <= minutes < 60], so that what
    is printed is at most the time left and less than a minute short of it;
    for an expiry not later than the reading the tool says "expired". *)
Theorem expiry_note_rounds_down (expiresAt : jsval) (e : Z) (w : World) :
  truthy expiresAt = true →
  new_Date expiresAt = Some e →
  ∃ note, expiry_note expiresAt w = (Val note, tick w)
    ∧ (e ≤ clock w (ticks w) → note = ExpiredAt (Some e))
    ∧ (clock w (ticks w) < e →
       ∃ hours minutes, note = ExpiresIn hours minutes (Some e)
         ∧ 0 ≤ hours ∧ 0 ≤ minutes < 60
         ∧ hours * 3600000 + minutes * 60000 ≤ e - clock w (ticks w)
           < hours * 3600000 + (minutes + 1) * 60000).
Proof.
  intros Ht He. unfold expiry_note. rewrite Ht, He. unfold_js.
  destruct (Z.ltb_spec 0 (e - clock w (ticks w))) as [Hlt|Hge].
  - eexists. split; [reflexivity|]. split; [lia|]. intros _.
    do 2 eexists. split; [reflexivity|].
    unfold hours_left, minutes_left.
    set (t := e - clock w (ticks w)) in *.
    change (1000 * 60 * 60) with 3600000. change (1000 * 60) with 60000.
    pose proof (Z.div_mod t 3600000 ltac:(lia)) as Hh.
    pose proof (Z.mod_pos_bound t 3600000 ltac:(lia)) as Hhb.
    pose proof (Z.div_mod (t mod 3600000) 60000 ltac:(lia)) as Hm.
    pose proof (Z.mod_pos_bound (t mod 3600000) 60000 ltac:(lia)) as Hmb.
    assert (0 ≤ t / 3600000) by (apply Z.div_pos; lia).
    assert (0 ≤ (t mod 3600000) / 60000) by (apply Z.div_pos; lia).
    assert ((t mod 3600000) / 60000 < 60)
      by (apply Z.div_lt_upper_bound; lia).
    lia.
  - eexists. split; [reflexivity|]. split; [done|]. lia.
Qed.

End Status_tool.

Section More_examples.
Import Scenario Scenario2 Iso.

Lemma getClient_outcomes_witness :
  ∃ p', (getClient (fresh (holding record0 1699996400000)) = (Val GraphClient, p')
         ∧ isAuthenticated (this p') = true
         ∨ getClient (fresh (holding record0 1699996400000))
           = (Exc (Error NotAuthenticatedRunCli), p')
           ∧ isAuthenticated (this p') = false)
    ∧ (isInitialized (this p') = true ↔ client (this p') = Some GraphClient)
    ∧ (network_calls (world p')
       ≤ network_calls (world (fresh (holding record0 1699996400000))) + 1)%nat
    ∧ (writes (world p')
       ≤ writes (world (fresh (holding record0 1699996400000))) + 1)%nat.
Proof.
  apply (getClient_outcomes (fresh (holding record0 1699996400000))).
  split; discriminate.
Defined.

Lemma expiring_token_is_never_handed_out_witness :
  ∃ r, token_endpoint (world (started rotating)) (token_calls (world (started rotating)))
       = Some (Success (Some r))
    ∧ VStr "at1" = VStr (access_token r)
    ∧ network_calls (world (snd (getAccessToken (started rotating))))
      = S (network_calls (world (started rotating))).
Proof.
  apply (expiring_token_is_never_handed_out (started rotating)
           (snd (getAccessToken (started rotating))) (VStr "at1") 1700000000000).
  - vm_compute. reflexivity.
  - vm_compute. discriminate.
  - vm_compute. discriminate.
  - vm_compute. reflexivity.
Defined.

Lemma invalid_expiry_never_refreshes_witness :
  ∃ p', calls 3 (started (holding no_expiresAt 1800000000000))
        = (replicate 3
             (Val (get_prop (authInfo (this (started (holding no_expiresAt 1800000000000))))
                     "accessToken")), p')
    ∧ this p' = this (started (holding no_expiresAt 1800000000000))
    ∧ trace (world p') = trace (world (started (holding no_expiresAt 1800000000000))).
Proof.
  apply (invalid_expiry_never_refreshes 3 (started (holding no_expiresAt 1800000000000))).
  - vm_compute. reflexivity.
  - vm_compute. reflexivity.
Defined.



Lemma refresh_keeps_other_fields_witness :
  get_prop (authInfo (this (snd (refreshAccessToken (started rotating))))) "clientId"
  = get_prop (authInfo (this (started rotating))) "clientId"
  ∧ ∃ doc, file (world (snd (refreshAccessToken (started rotating)))) = Some (Json doc)
           ∧ get_prop doc "clientId"
             = get_prop (authInfo (this (started rotating))) "clientId".
Proof.
  apply (refresh_keeps_other_fields (started rotating)
           (snd (refreshAccessToken (started rotating))) "clientId").
  - vm_compute. reflexivity.
  - discriminate.
  - discriminate.
  - discriminate.
  - discriminate.
Defined.

Lemma caller_settles_in_five_turns_witness :
  ∃ r, tasks (run alternate (batch 2 (started rotating))) !! 1%nat = Some (Settled r).
Proof.
  apply (caller_settles_in_five_turns alternate 2 1 (started rotating)).
  - lia.
  - vm_compute. lia.
Defined.

Lemma pollForToken_returns_first_token_witness :
  ∃ w' tr,
    pollForToken "device0" 5 slow_twice = (Val token1, w')
    ∧ network_calls w' = (network_calls slow_twice + 3)%nat
    ∧ trace w'
      = EvFetch (DeviceTokenRequest "device0")
        :: EvSleep ((5 + 5 * Z.of_nat (slow_downs slow_twice (token_calls slow_twice) 2))
                    * 1000)
        :: tr.
Proof.
  apply (pollForToken_returns_first_token "device0" 2 5 slow_twice token1).
  - vm_compute. lia.
  - intros [|[|j]] Hj; [reflexivity|reflexivity|lia].
  - reflexivity.
Defined.

Lemma pollForToken_stops_at_terminal_error_witness :
  ∃ w',
    pollForToken "device0" 5 declined
    = (Exc (Error
              (if String.eqb
                    (error {| error := "authorization_declined";
                              error_description := "authorization_declined" |})
                    "authorization_declined"
               then UserDeclined
               else if String.eqb
                         (error {| error := "authorization_declined";
                                   error_description := "authorization_declined" |})
                         "expired_token"
               then DeviceCodeExpired
               else AuthenticationFailed
                      (error {| error := "authorization_declined";
                                error_description := "authorization_declined" |})
                      (error_description
                         {| error := "authorization_declined";
                            error_description := "authorization_declined" |}))),
       w')
    ∧ network_calls w' = (network_calls declined + 2)%nat.
Proof.
  apply (pollForToken_stops_at_terminal_error "device0" 1 5 declined 400
           "authorization_declined"
           {| error := "authorization_declined";
              error_description := "authorization_declined" |}).
  - vm_compute. lia.
  - intros [|j] Hj; [reflexivity|lia].
  - reflexivity.
  - discriminate.
  - discriminate.
Defined.

Lemma stored_record_is_accepted_witness :
  (∃ out w', checkAuth logged_in = (Val (true, out), w'))
  ∧ ∃ p' p'', getClient (fresh logged_in) = (Val GraphClient, p')
      ∧ getAccessToken p' = (Val (VStr (access_token token1)), p'')
      ∧ trace (world p'') = trace logged_in.
Proof.
  apply (stored_record_is_accepted logged_in
           (Date_toISOString 1699996400000) 1700000000000 token1).
  - vm_compute. reflexivity.
  - vm_compute. reflexivity.
  - vm_compute. reflexivity.
  - vm_compute. reflexivity.
  - vm_compute. discriminate.
Defined.

Lemma logout_does_not_reach_running_server_witness :
  file (snd (logout (world (started rotating)))) = None
  ∧ getClient {| this := this (started rotating);
                 world := snd (logout (world (started rotating))) |}
    = (Val GraphClient,
       {| this := this (started rotating);
          world := snd (logout (world (started rotating))) |})
  ∧ fst (getAccessToken {| this := this (started rotating);
                           world := snd (logout (world (started rotating))) |})
    = fst (getAccessToken (started rotating))
  ∧ this (snd (getAccessToken {| this := this (started rotating);
                                 world := snd (logout (world (started rotating))) |}))
    = this (snd (getAccessToken (started rotating))).
Proof.
  apply (logout_does_not_reach_running_server (started rotating)).
  - vm_compute. reflexivity.
  - vm_compute. reflexivity.
Defined.

Lemma server_picks_up_later_login_witness :
  ∃ p1 p2,
    getClient (fresh waiting) = (Exc (Error NotAuthenticatedRunCli), p1)
    ∧ getClient (with_file
                   (Some (Json (stored "2023-11-14T21:13:20.000Z"
                                  (Date_toISOString 1700000000000) token1))) p1)
      = (Val GraphClient, p2)
    ∧ get_prop (authInfo (this p2)) "accessToken" = VStr (access_token token1)
    ∧ network_calls (world p2) = network_calls waiting.
Proof.
  apply (server_picks_up_later_login waiting "2023-11-14T21:13:20.000Z"
           1700000000000 token1).
  - reflexivity.
  - vm_compute. reflexivity.
  - vm_compute. reflexivity.
  - vm_compute. discriminate.
Defined.

Lemma expiry_note_rounds_down_witness :
  ∃ note, expiry_note (VStr "2023-11-14T22:13:20.000Z") (holding record0 1699994500000)
          = (Val note, tick (holding record0 1699994500000))
    ∧ (1700000000000 ≤ clock (holding record0 1699994500000)
                         (ticks (holding record0 1699994500000)) →
       note = ExpiredAt (Some 1700000000000))
    ∧ (clock (holding record0 1699994500000) (ticks (holding record0 1699994500000))
       < 1700000000000 →
       ∃ hours minutes, note = ExpiresIn hours minutes (Some 1700000000000)
         ∧ 0 ≤ hours ∧ 0 ≤ minutes < 60
         ∧ hours * 3600000 + minutes * 60000
           ≤ 1700000000000 - clock (holding record0 1699994500000)
                               (ticks (holding record0 1699994500000))
           < hours * 3600000 + (minutes + 1) * 60000).
Proof.
  apply (expiry_note_rounds_down (VStr "2023-11-14T22:13:20.000Z") 1700000000000
           (holding record0 1699994500000)).
  - reflexivity.
  - vm_compute. reflexivity.
Defined.

(** The tool, run one hour, thirty-one minutes and forty seconds before the
    expiry: "expires in 1h 31m". *)
Lemma expiry_note_run :
  fst (expiry_note (VStr "2023-11-14T22:13:20.000Z") (holding record0 1699994500000))
  = Val (ExpiresIn 1 31 (Some 1700000000000)).
Proof. vm_compute. reflexivity. Qed.

(** After the login of [slow_twice]: [checkAuth] finds it, [logout] clears
    it, and [checkAuth] finds nothing. *)
Lemma login_logout_run :
  fst (checkAuth logged_in)
  = Val (true, AuthenticationFound (VStr "2023-11-14T21:13:20.000Z")
                 (Some 1700000000000) true)
  ∧ fst (logout logged_in) = Val LoggedOut
  ∧ fst (checkAuth (snd (logout logged_in))) = Val (false, NoAuthenticationFound)
  ∧ fst (logout (snd (logout logged_in))) = Val NoAuthenticationToClear.
Proof. vm_compute. repeat split; reflexivity. Qed.

(** Documents on which [checkAuth] answers [false] although
    [authenticated] and [clientId] are there: the [timestamp], or an element
    of the [expiresAt], has a [toString] of its own. *)
Lemma checkAuth_no_primitive_run :
  ToPrimitive_throws no_primitive = true
  ∧ ToPrimitive_throws (VObj (<["valueOf" := VNum 1]> ∅)) = false
  ∧ checkAuth (holding odd_timestamp 1699996400000)
    = (Val (false, FoundThenNoAuthenticationFound),
       holding odd_timestamp 1699996400000)
  ∧ checkAuth (holding odd_expiresAt 1699996400000)
    = (Val (false, FoundOnThenNoAuthenticationFound (VStr "2023-11-14T21:13:20.000Z")),
       holding odd_expiresAt 1699996400000).
Proof. vm_compute. repeat split; reflexivity. Qed.

(** The [auth_status] tool an hour before the expiry, on the two answers of
    the Graph API. *)
Lemma auth_status_run :
  fst (auth_status me_ada (fresh (holding record0 1699996400000)))
  = Val (Returned (AuthenticatedAs (VStr "Ada") (VStr "ada@example.org")
                     (ExpiresIn 1 0 (Some 1700000000000))))
  ∧ fst (auth_status me_odd (fresh (holding record0 1699996400000)))
    = Val ThrewTypeError
  ∧ fst (auth_status me_ada (fresh waiting)) = Val (Returned NotAuthenticated).
Proof. vm_compute. repeat split; reflexivity. Qed.

End More_examples.
